(** * CSP servo template (CiA-402, Omron R88D-1SN reference)

    A shallow embedding of [csp_servo_template.c]: the process image
    structs, the static control-loop context of [ServoTemplate_Run], the
    initialisation [ServoTemplate_Init] and the cycle function itself, with
    the properties of the set-point producer, the fault handling and the
    following-error monitor stated over them.  The little-endian helpers
    are modelled over a byte image (sections 12 and "The byte image"), the
    clock helpers [now_ms] and [sleep_ms] as the arithmetic they perform.

    Conventions of the embedding.
    - C integers are [Z]; every place where the C code computes in a
      fixed-width type carries its wrap-around ([u16], [u32], [s32], [s64]).
      Signed overflow is undefined in C; the model wraps, and the properties
      proved below that depend on arithmetic stay in the range where no
      wrap happens.
    - The [static] locals of [ServoTemplate_Run] (including the block-local
      [need_release]) are the fields of [Ctx]; the function takes the old
      context and returns the new one.
    - [now_ms()] is called at most once on every path through the function;
      its result is the argument [now].
    - A call returns the new context, the new content of the output image
      and the list of effects of the call in program order: the writes to
      the output image and the log lines. *)

From Stdlib Require Import ZArith List Bool Lia.
From coqutil Require Import Byte Word.LittleEndianList.
Import ListNotations.
Local Open Scope Z_scope.

(** ** 1. User configuration *)

Definition LOOP_PERIOD_MS    : Z := 1.
Definition INC_STEP          : Z := 300.
Definition LIMIT_POS         : Z := 200000.
Definition DWELL_MS          : Z := 500.
Definition RAMP_MS           : Z := 300.
Definition FE_WINDOW_COUNTS  : Z := 20000.
Definition FE_WARN_PCT       : Z := 80.
Definition FAULT_COOLDOWN_MS : Z := 250.
Definition COMM_COOLDOWN_MS  : Z := 0.

(** ** 2. Fixed-width integers *)

Definition u16 (x : Z) : Z := x mod 2 ^ 16.
Definition u32 (x : Z) : Z := x mod 2 ^ 32.
Definition s32 (x : Z) : Z := (x + 2 ^ 31) mod 2 ^ 32 - 2 ^ 31.
Definition s64 (x : Z) : Z := (x + 2 ^ 63) mod 2 ^ 64 - 2 ^ 63.

Definition in_i32 (x : Z) : Prop := - 2 ^ 31 <= x < 2 ^ 31.

(** ** 3. Process image *)

Record Drive_Inputs : Set := mkInputs {
  status_word            : Z;   (* uint16_t, 0x6041:0 *)
  position_actual_value  : Z;   (* int32_t,  0x6064:0 *)
  following_error_actual : Z;   (* int32_t,  0x60F4:0 *)
  error_code             : Z    (* uint16_t, 0x603F:0 *)
}.

Record Drive_Outputs : Set := mkOutputs {
  control_word    : Z;          (* uint16_t, 0x6040:0 *)
  target_position : Z           (* int32_t,  0x607A:0 *)
}.

(** [sizeof] of the two packed structs, in bits. *)
Definition DRIVE_INPUTS_BITS  : Z := (2 + 4 + 4 + 2) * 8.
Definition DRIVE_OUTPUTS_BITS : Z := (2 + 4) * 8.

(** [EC_SETWORD(OUT_PTR(control_word), v)]: the value is cast to
    [uint16_t] before it is stored. *)
Definition set_control_word (v : Z) (o : Drive_Outputs) : Drive_Outputs :=
  mkOutputs (u16 v) (target_position o).

(** [EC_SETUINT32(OUT_PTR(target_position), (uint32_t)v)]: the 32 bits of
    [v] are stored in a field that is read back as [int32_t]. *)
Definition set_target_position (v : Z) (o : Drive_Outputs) : Drive_Outputs :=
  mkOutputs (control_word o) (s32 (u32 v)).

(** ** 4. Effects of a call *)

Inductive Event : Set :=
| WrControl (v : Z)        (* control_word written with [v]            *)
| WrTarget  (v : Z)        (* target_position written with [v]         *)
| DbgReadyToSwitchOn       (* DBGF("ReadyToSwitchOn")                  *)
| DbgSwitchedOn            (* DBGF("SwitchedOn")                       *)
| DbgOperationEnabled      (* DBGF("OperationEnabled (CSP)")           *)
| WarnFeHigh (fe : Z)      (* WARNF("FE high: %d", fe)                 *)
| DbgFeBack  (fe : Z)      (* DBGF("FE back: %d", fe)                  *)
| WarnPdoSize              (* WARNF("PDO size mismatch: ...")          *)
| WarnMapIo                (* WARNF("map_io() not implemented yet...") *)
| DbgMapped                (* DBGF("PI mapped OK ...")                 *)
| SdoWriteU8  (idx sub v : Z)
| SdoWriteU32 (idx sub v : Z).

(** ** 5. Global pointers and the integration layer *)

(** A process image pointer is an address or NULL. *)
Definition Ptr : Set := option Z.

Record Globals : Set := mkGlobals {
  g_in  : Ptr;
  g_out : Ptr
}.

Definition globals0 : Globals := mkGlobals None None.

(** The result of a [map_io] implementation: its return code and the two
    pointers it stored through [in] and [out]. *)
Record MapIoResult : Set := mkMapIo {
  map_rc  : Z;
  map_in  : Ptr;
  map_out : Ptr
}.

Definition MapIo : Set := Z -> Z -> Z -> MapIoResult.

(** The stub of the template: both pointers NULL, return -1. *)
Definition map_io : MapIo :=
  fun _slave_index _in_off_bits _out_off_bits => mkMapIo (-1) None None.

(** ** 6. Initialisation *)

(** [ServoTemplate_Init] over a given [map_io] implementation.  The SDO
    writes are the ones compiled in with [OMRON_R88D_EXAMPLE = 1]:
    6060:0, 60C2:1 and 6065:0; their return codes are discarded. *)
Definition ServoTemplate_Init_with (mio : MapIo)
    (slave_index eni_in_bits eni_out_bits eni_in_off_bits eni_out_off_bits : Z)
    : Z * Globals * list Event :=
  let ev_size :=
    if negb (eni_in_bits =? DRIVE_INPUTS_BITS)
       || negb (eni_out_bits =? DRIVE_OUTPUTS_BITS)
    then [WarnPdoSize] else [] in
  let r := mio slave_index eni_in_off_bits eni_out_off_bits in
  let '(g, ev_map) :=
    if negb (map_rc r =? 0)
    then (mkGlobals None None, [WarnMapIo])
    else (mkGlobals (map_in r) (map_out r), [DbgMapped]) in
  let ev_sdo :=
    [ SdoWriteU8  0x6060 0 8;
      SdoWriteU32 0x60C2 1 (u32 (LOOP_PERIOD_MS * 1000));
      SdoWriteU32 0x6065 0 (u32 FE_WINDOW_COUNTS) ] in
  (0, g, ev_size ++ ev_map ++ ev_sdo).

Definition ServoTemplate_Init := ServoTemplate_Init_with map_io.

(** ** 7. Control-loop context *)

Record Ctx : Set := mkCtx {
  st             : Z;  (* int: 0=Shutdown, 1=SwitchOn, 2=aligning, 3=Running *)
  t0             : Z;  (* long: loop scheduler reference (ms)                *)
  pos_tgt        : Z;  (* int32_t: current target position                   *)
  dir            : Z;  (* int: +1 forward, -1 backward, 0 stopped            *)
  dwell_rem      : Z;  (* int: ms remaining in dwell                         *)
  ramp_rem       : Z;  (* int: ms remaining in ramp                          *)
  fe_warn        : Z;  (* int: FE warning latched                            *)
  fault_cool_rem : Z;  (* int: post-fault cooldown                           *)
  comm_cool_rem  : Z;  (* int: optional comm cooldown                        *)
  edge           : Z;  (* uint16_t: bit4 toggler                             *)
  need_release   : Z   (* int: fault-reset pulse pending                     *)
}.

(** The initial values of the static locals. *)
Definition ctx0 : Ctx :=
  mkCtx 0 0 0 1 0 0 0 0 COMM_COOLDOWN_MS 0 0.

Definition out0 : Drive_Outputs := mkOutputs 0 0.

Definition set_st (v : Z) (c : Ctx) : Ctx :=
  mkCtx v (t0 c) (pos_tgt c) (dir c) (dwell_rem c) (ramp_rem c) (fe_warn c)
        (fault_cool_rem c) (comm_cool_rem c) (edge c) (need_release c).
Definition set_t0 (v : Z) (c : Ctx) : Ctx :=
  mkCtx (st c) v (pos_tgt c) (dir c) (dwell_rem c) (ramp_rem c) (fe_warn c)
        (fault_cool_rem c) (comm_cool_rem c) (edge c) (need_release c).
Definition set_pos_tgt (v : Z) (c : Ctx) : Ctx :=
  mkCtx (st c) (t0 c) v (dir c) (dwell_rem c) (ramp_rem c) (fe_warn c)
        (fault_cool_rem c) (comm_cool_rem c) (edge c) (need_release c).
Definition set_dir (v : Z) (c : Ctx) : Ctx :=
  mkCtx (st c) (t0 c) (pos_tgt c) v (dwell_rem c) (ramp_rem c) (fe_warn c)
        (fault_cool_rem c) (comm_cool_rem c) (edge c) (need_release c).
Definition set_dwell_rem (v : Z) (c : Ctx) : Ctx :=
  mkCtx (st c) (t0 c) (pos_tgt c) (dir c) v (ramp_rem c) (fe_warn c)
        (fault_cool_rem c) (comm_cool_rem c) (edge c) (need_release c).
Definition set_ramp_rem (v : Z) (c : Ctx) : Ctx :=
  mkCtx (st c) (t0 c) (pos_tgt c) (dir c) (dwell_rem c) v (fe_warn c)
        (fault_cool_rem c) (comm_cool_rem c) (edge c) (need_release c).
Definition set_fe_warn (v : Z) (c : Ctx) : Ctx :=
  mkCtx (st c) (t0 c) (pos_tgt c) (dir c) (dwell_rem c) (ramp_rem c) v
        (fault_cool_rem c) (comm_cool_rem c) (edge c) (need_release c).
Definition set_fault_cool_rem (v : Z) (c : Ctx) : Ctx :=
  mkCtx (st c) (t0 c) (pos_tgt c) (dir c) (dwell_rem c) (ramp_rem c) (fe_warn c)
        v (comm_cool_rem c) (edge c) (need_release c).
Definition set_comm_cool_rem (v : Z) (c : Ctx) : Ctx :=
  mkCtx (st c) (t0 c) (pos_tgt c) (dir c) (dwell_rem c) (ramp_rem c) (fe_warn c)
        (fault_cool_rem c) v (edge c) (need_release c).
Definition set_edge (v : Z) (c : Ctx) : Ctx :=
  mkCtx (st c) (t0 c) (pos_tgt c) (dir c) (dwell_rem c) (ramp_rem c) (fe_warn c)
        (fault_cool_rem c) (comm_cool_rem c) v (need_release c).
Definition set_need_release (v : Z) (c : Ctx) : Ctx :=
  mkCtx (st c) (t0 c) (pos_tgt c) (dir c) (dwell_rem c) (ramp_rem c) (fe_warn c)
        (fault_cool_rem c) (comm_cool_rem c) (edge c) v.

(** ** 8. Set-point producer and following-error monitor *)

(** The scaled increment of an active ramp (the body of
    [if (ramp_rem > 0)] up to, not including, [ramp_rem--]). *)
Definition ramp_scaled (d r : Z) : Z :=
  let delta      := s32 (d * INC_STEP) in
  let ramp_total := if 0 <? RAMP_MS then RAMP_MS else 1 in
  let ramp_used  := s32 (s32 (ramp_total - r) + 1) in
  let delta      := Z.quot (s32 (delta * ramp_used)) ramp_total in
  if (delta =? 0) && negb (d =? 0)
  then (if 0 <? d then 1 else -1)
  else delta.

(** The increment added to [pos_tgt] on a producer tick outside a dwell,
    for direction [d] and ramp countdown [r]. *)
Definition tick_delta (d r : Z) : Z :=
  if 0 <? r then ramp_scaled d r else s32 (d * INC_STEP).

(** Clamp and start dwell at the limits (the two [if]s in sequence). *)
Definition clamp_limits (c : Ctx) : Ctx :=
  let c :=
    if LIMIT_POS <? pos_tgt c
    then set_dir 0 (set_dwell_rem DWELL_MS (set_pos_tgt LIMIT_POS c))
    else c in
  if pos_tgt c <? - LIMIT_POS
  then set_dir 0 (set_dwell_rem DWELL_MS (set_pos_tgt (- LIMIT_POS) c))
  else c.

(** The dwell / ramp / clamp part of a producer tick. *)
Definition advance_target (c : Ctx) : Ctx :=
  if 0 <? dwell_rem c then
    let c := set_dwell_rem (dwell_rem c - 1) c in
    if dwell_rem c =? 0
    then set_dir (if dir c =? 0 then -1 else dir c) (set_ramp_rem RAMP_MS c)
    else c
  else
    let delta := tick_delta (dir c) (ramp_rem c) in
    let c := if 0 <? ramp_rem c then set_ramp_rem (ramp_rem c - 1) c else c in
    let c := set_pos_tgt (s32 (pos_tgt c + delta)) c in
    clamp_limits c.

Definition fe_warn_th : Z := Z.quot (FE_WINDOW_COUNTS * FE_WARN_PCT) 100.
Definition fe_ok_th   : Z := Z.quot (FE_WINDOW_COUNTS * 40) 100.

(** Following-error monitor with hysteresis: the new latch and the log
    line of the call, if any. *)
Definition fe_monitor (latched fe : Z) : Z * list Event :=
  if (latched =? 0) && ((fe_warn_th <? fe) || (fe <? - fe_warn_th))
  then (1, [WarnFeHigh fe])
  else if negb (latched =? 0) && ((fe <? fe_ok_th) && (- fe_ok_th <? fe))
  then (0, [DbgFeBack fe])
  else (latched, []).

(** One producer tick: the body of [if (now - t0 >= LOOP_PERIOD_MS)],
    compiled with [SETPOINT_EDGE_POLICY = 1] (ON_CHANGE). *)
Definition csp_producer (now : Z) (inp : Drive_Inputs)
    (c : Ctx) (out : Drive_Outputs) : Ctx * Drive_Outputs * list Event :=
  let pos_prev := pos_tgt c in
  let c   := advance_target c in
  let out := set_target_position (pos_tgt c) out in
  let c   := if negb (pos_tgt c =? pos_prev)
             then set_edge (u16 (Z.lxor (edge c) 0x0010)) c else c in
  let cw  := Z.lor 0x000F (edge c) in
  let out := set_control_word cw out in
  let fe  := s32 (u32 (following_error_actual inp)) in
  let '(latch, log) := fe_monitor (fe_warn c) fe in
  let c   := set_fe_warn latch c in
  let c   := set_t0 now c in
  (c, out, [WrTarget (s32 (u32 (pos_tgt c))); WrControl (u16 cw)] ++ log).

(** ** 9. The cycle function *)

(** [now - t0 >= period], computed in [long] (64 bits). *)
Definition elapsed (period now : Z) (c : Ctx) : bool :=
  period <=? s64 (now - t0 c).

Definition ServoTemplate_Run (g : Globals) (now : Z) (inp : Drive_Inputs)
    (c : Ctx) (out : Drive_Outputs) : Ctx * Drive_Outputs * list Event :=
  match g_in g, g_out g with
  | Some _, Some _ =>
    let SW := status_word inp in
    if SW =? 0 then
      (set_t0 now c, out, [])
    else if negb (Z.land SW 0x0008 =? 0) then
      if need_release c =? 0 then
        (set_need_release 1 c, set_control_word 0x0080 out, [WrControl 0x0080])
      else
        (set_need_release 0 c, set_control_word 0x0006 out, [WrControl 0x0006])
    else if 0 <? fault_cool_rem c then
      let c := if elapsed 1 now c
               then set_t0 now (set_fault_cool_rem (fault_cool_rem c - 1) c)
               else c in
      (c, set_control_word 0x0006 out, [WrControl 0x0006])
    else if 0 <? comm_cool_rem c then
      let c := if elapsed 1 now c
               then set_t0 now (set_comm_cool_rem (comm_cool_rem c - 1) c)
               else c in
      (c, set_control_word 0x0006 out, [WrControl 0x0006])
    else if negb (Z.land SW 0x0040 =? 0) then
      (set_st 0 c, set_control_word 0x0006 out, [WrControl 0x0006])
    else if st c =? 0 then
      if Z.land SW 0x006F =? 0x0021
      then (set_st 1 c, set_control_word 0x0006 out,
            [WrControl 0x0006; DbgReadyToSwitchOn])
      else (c, set_control_word 0x0006 out, [WrControl 0x0006])
    else if st c =? 1 then
      if Z.land SW 0x006F =? 0x0023
      then (set_st 2 c, set_control_word 0x0007 out,
            [WrControl 0x0007; DbgSwitchedOn])
      else (c, set_control_word 0x0007 out, [WrControl 0x0007])
    else if st c =? 2 then
      let pos_act := s32 (u32 (position_actual_value inp)) in
      let c   := set_pos_tgt pos_act c in
      let out := set_target_position (pos_tgt c) out in
      let out := set_control_word 0x000F out in
      let ev  := [WrTarget (s32 (u32 (pos_tgt c))); WrControl 0x000F] in
      if Z.land SW 0x006F =? 0x0027
      then (set_ramp_rem RAMP_MS (set_t0 now (set_st 3 c)), out,
            ev ++ [DbgOperationEnabled])
      else (c, out, ev)
    else if st c =? 3 then
      if elapsed LOOP_PERIOD_MS now c
      then csp_producer now inp c out
      else (c, out, [])
    else (c, out, [])
  | _, _ => (c, out, [])
  end.

(** ** 10. Executions *)

(** One invocation of the cycle function: the clock value and the content
    of the input image at that call. *)
Definition Tick : Set := (Z * Drive_Inputs)%type.

(** Inputs with only the status word of interest. *)
Definition sw_only (sw : Z) : Drive_Inputs := mkInputs sw 0 0 0.

(** Run the cycle function over a sequence of ticks; the effects are kept
    per tick. *)
Fixpoint run (g : Globals) (c : Ctx) (out : Drive_Outputs) (tr : list Tick)
    : Ctx * Drive_Outputs * list (list Event) :=
  match tr with
  | [] => (c, out, [])
  | (now, inp) :: tr' =>
    let '(c1, out1, ev) := ServoTemplate_Run g now inp c out in
    let '(c2, out2, evs) := run g c1 out1 tr' in
    (c2, out2, ev :: evs)
  end.

Definition run_ctx g c out tr : Ctx := fst (fst (run g c out tr)).
Definition run_out g c out tr : Drive_Outputs := snd (fst (run g c out tr)).
Definition run_events g c out tr : list (list Event) := snd (run g c out tr).

(** The control words and the targets written by the effects of a call. *)
Fixpoint control_writes (ev : list Event) : list Z :=
  match ev with
  | [] => []
  | WrControl v :: ev' => v :: control_writes ev'
  | _ :: ev' => control_writes ev'
  end.

Fixpoint target_writes (ev : list Event) : list Z :=
  match ev with
  | [] => []
  | WrTarget v :: ev' => v :: target_writes ev'
  | _ :: ev' => target_writes ev'
  end.

(** Both image pointers are non-NULL (the negation of the test
    [!g_in || !g_out] at the top of the cycle function). *)
Definition mappedb (g : Globals) : bool :=
  match g_in g, g_out g with
  | Some _, Some _ => true
  | _, _ => false
  end.

Definition mapped (g : Globals) : Prop := mappedb g = true.

Definition g_mapped : Globals := mkGlobals (Some 0x1000) (Some 0x2000).

(** ** 11. Concrete executions *)

(** [n] consecutive calls, one millisecond apart from [now] on, each
    seeing the same input image. *)
Fixpoint ticks_from (n : nat) (now : Z) (inp : Drive_Inputs) : list Tick :=
  match n with
  | O => []
  | S n' => (now, inp) :: ticks_from n' (now + 1) inp
  end.

(** Enable the drive with the axis standing at [p] (ready to switch on at
    1 ms, switched on at 2 ms, operation enabled at 3 ms), then [n] calls
    with the drive in Operation Enabled, one per millisecond. *)
Definition enable_then_run (p : Z) (n : nat) : list Tick :=
  [ (1, sw_only 0x0021); (2, sw_only 0x0023); (3, mkInputs 0x0027 p 0 0) ]
  ++ ticks_from n 4 (sw_only 0x0027).

(** The drive leaves Operation Enabled and is enabled again: it reports
    switch-on disabled at [now], ready to switch on and switched on at the
    next two calls, and operation enabled at [now + 3] with the axis
    standing at [p]. *)
Definition reenable (now p : Z) : list Tick :=
  [ (now, sw_only 0x0040); (now + 1, sw_only 0x0021);
    (now + 2, sw_only 0x0023); (now + 3, mkInputs 0x0027 p 0 0) ].

(** Enabled at 5000 counts, one set-point produced (5001), then disabled
    and enabled again with the axis back at 5000. *)
Definition reenabled_moving : list Tick :=
  enable_then_run 5000 1 ++ reenable 5 5000.

(** Enabled at 199999 counts, two set-points produced (the second is
    clamped at [LIMIT_POS] and starts the dwell), then disabled and enabled
    again with the axis at 200000. *)
Definition reenabled_dwelling : list Tick :=
  enable_then_run 199999 2 ++ reenable 6 200000.

(** The target is inside the software limits. *)
Definition within_limits (v : Z) : Prop := - LIMIT_POS <= v <= LIMIT_POS.

(** Every target written during an execution is inside the limits. *)
Definition targets_within_limits (evs : list (list Event)) : Prop :=
  Forall (fun ev => Forall within_limits (target_writes ev)) evs.

(** Whenever a call starts in the aligning stage, the actual position it
    reads is inside the limits. *)
Fixpoint aligned_within_limits (g : Globals) (c : Ctx) (out : Drive_Outputs)
    (tr : list Tick) : Prop :=
  match tr with
  | [] => True
  | (now, inp) :: tr' =>
    (st c = 2 -> within_limits (position_actual_value inp)) /\
    let '(c1, out1, _) := ServoTemplate_Run g now inp c out in
    aligned_within_limits g c1 out1 tr'
  end.

(** The following-error monitor over a sequence of samples: the final
    latch and all log lines in order. *)
Fixpoint fe_trace (latched : Z) (l : list Z) : Z * list Event :=
  match l with
  | [] => (latched, [])
  | fe :: l' =>
    let '(latched1, ev) := fe_monitor latched fe in
    let '(latched2, evs) := fe_trace latched1 l' in
    (latched2, ev ++ evs)
  end.

(** A call that reaches the set-point producer: images mapped, link up, no
    fault, no cooldown pending, not switch-on disabled, stage Running and
    at least one loop period elapsed. *)
Definition producer_tick (g : Globals) (now : Z) (inp : Drive_Inputs)
    (c : Ctx) : Prop :=
  mapped g /\
  status_word inp <> 0 /\
  Z.land (status_word inp) 0x0008 = 0 /\
  Z.land (status_word inp) 0x0040 = 0 /\
  fault_cool_rem c <= 0 /\
  comm_cool_rem c <= 0 /\
  st c = 3 /\
  LOOP_PERIOD_MS <= s64 (now - t0 c).

(** A call that reaches the aligning case of the stage switch. *)
Definition aligning_tick (g : Globals) (inp : Drive_Inputs) (c : Ctx) : Prop :=
  mapped g /\
  status_word inp <> 0 /\
  Z.land (status_word inp) 0x0008 = 0 /\
  Z.land (status_word inp) 0x0040 = 0 /\
  fault_cool_rem c <= 0 /\
  comm_cool_rem c <= 0 /\
  st c = 2.

(** Clamped at [-LIMIT_POS] with the dwell running, or just after the
    dwell with direction -1 and a fresh ramp. *)
Definition stuck_low (c : Ctx) : Prop :=
  pos_tgt c = - LIMIT_POS /\
  ((0 < dwell_rem c /\ dir c = 0) \/
   (dwell_rem c = 0 /\ dir c = -1 /\ ramp_rem c = RAMP_MS)).

(** The running target is an [int32_t] value and, in the Running stage,
    the output image holds it (it was written by the aligning stage or by
    the previous producer tick). *)
Definition image_inv (c : Ctx) (out : Drive_Outputs) : Prop :=
  in_i32 (pos_tgt c) /\ (st c = 3 -> target_position out = pos_tgt c).

(** Bit 4 (new set-point) of the control word in the output image. *)
Definition cw_bit4 (out : Drive_Outputs) : bool :=
  Z.testbit (control_word out) 4.

(** Between the image before a call ([out]) and after it ([out']): bit 4
    of the control word has flipped; the target has changed. *)
Definition cw_bit4_flips (out out' : Drive_Outputs) : bool :=
  negb (Bool.eqb (cw_bit4 out') (cw_bit4 out)).

Definition target_changed (out out' : Drive_Outputs) : bool :=
  negb (target_position out' =? target_position out).

(** The control word in the image carries the new-set-point bit kept in
    the context. *)
Definition edge_in_image (c : Ctx) (out : Drive_Outputs) : bool :=
  Bool.eqb (cw_bit4 out) (Z.testbit (edge c) 4).

(** ** 12. Little-endian helpers and the byte image *)

(** [memcpy] between an integer object and the image copies the object
    representation, so the byte order in the image is the one of the
    host. *)
Inductive Endian : Set := HostLittle | HostBig.

(** The [n] bytes of the unsigned object holding [v] (its low [8 * n]
    bits), and the value of an object with the given bytes. *)
Definition obj_bytes (e : Endian) (n : nat) (v : Z) : list byte :=
  match e with
  | HostLittle => le_split n v
  | HostBig => rev (le_split n v)
  end.

Definition obj_value (e : Endian) (bs : list byte) : Z :=
  match e with
  | HostLittle => le_combine bs
  | HostBig => le_combine (rev bs)
  end.

(** A process image is a sequence of bytes; a pointer into it is a byte
    offset.  [load] and [store] are the two directions of [memcpy]; the C
    code requires the range to lie inside the image. *)
Definition Image : Type := list byte.

Definition load (n p : nat) (m : Image) : list byte :=
  firstn n (skipn p m).

Definition store (p : nat) (bs : list byte) (m : Image) : Image :=
  firstn p m ++ bs ++ skipn (p + length bs) m.

Definition le_get_u16 (e : Endian) (m : Image) (p : nat) : Z :=
  obj_value e (load 2 p m).
Definition le_set_u16 (e : Endian) (m : Image) (p : nat) (v : Z) : Image :=
  store p (obj_bytes e 2 v) m.
Definition le_get_u32 (e : Endian) (m : Image) (p : nat) : Z :=
  obj_value e (load 4 p m).
Definition le_set_u32 (e : Endian) (m : Image) (p : nat) (v : Z) : Image :=
  store p (obj_bytes e 4 v) m.

(** [EC_GETWORD], [EC_SETWORD], [EC_GETUINT32], [EC_SETUINT32]: the
    setters cast the value to the unsigned type first. *)
Definition EC_GETWORD := le_get_u16.
Definition EC_SETWORD e m p v := le_set_u16 e m p (u16 v).
Definition EC_GETUINT32 := le_get_u32.
Definition EC_SETUINT32 e m p v := le_set_u32 e m p (u32 v).

(** [offsetof] in the two structs, which are packed ([#pragma pack(1)]). *)
Definition off_status_word            : nat := 0.
Definition off_position_actual_value  : nat := 2.
Definition off_following_error_actual : nat := 6.
Definition off_error_code             : nat := 10.
Definition off_control_word           : nat := 0.
Definition off_target_position        : nat := 2.

Definition sizeof_Drive_Inputs  : nat := 12.
Definition sizeof_Drive_Outputs : nat := 6.

(** The struct value held by an image: each field read with its accessor
    at its offset, 32-bit fields seen as [int32_t]. *)
Definition read_inputs (e : Endian) (m : Image) : Drive_Inputs :=
  mkInputs (EC_GETWORD e m off_status_word)
           (s32 (EC_GETUINT32 e m off_position_actual_value))
           (s32 (EC_GETUINT32 e m off_following_error_actual))
           (EC_GETWORD e m off_error_code).

Definition read_outputs (e : Endian) (m : Image) : Drive_Outputs :=
  mkOutputs (EC_GETWORD e m off_control_word)
            (s32 (EC_GETUINT32 e m off_target_position)).

(** ** 13. Clock helpers *)

(** [now_ms]: the value computed from the [timespec] that
    [clock_gettime(CLOCK_MONOTONIC)] returns ([time_t] and [long] are
    64 bits wide). *)
Definition now_ms_of (tv_sec tv_nsec : Z) : Z :=
  s64 (s64 (tv_sec * 1000) + Z.quot tv_nsec 1000000).

(** [sleep_ms]: the [timespec] handed to [nanosleep] for an [unsigned]
    number of milliseconds. *)
Definition sleep_req (ms : Z) : Z * Z :=
  (u32 ms / 1000, (u32 ms mod 1000) * 1000000).

(** A [timespec] as the clock returns it, far from the end of [time_t]. *)
Definition timespec_ok (tv_sec tv_nsec : Z) : Prop :=
  0 <= tv_sec < 2 ^ 52 /\ 0 <= tv_nsec < 1000000000.

Definition timespec_ns (tv_sec tv_nsec : Z) : Z :=
  tv_sec * 1000000000 + tv_nsec.

(** ** 14. Reachable contexts and healthy executions *)

(** What every context reached from the initial one satisfies. *)
Definition ctx_inv (c : Ctx) : Prop :=
  0 <= st c <= 3 /\
  (dir c = -1 \/ dir c = 0 \/ dir c = 1) /\
  0 <= dwell_rem c <= DWELL_MS /\
  0 <= ramp_rem c <= RAMP_MS /\
  (dir c = 0 <-> 0 < dwell_rem c) /\
  (fe_warn c = 0 \/ fe_warn c = 1) /\
  comm_cool_rem c = 0 /\
  (edge c = 0 \/ edge c = 0x0010) /\
  (need_release c = 0 \/ need_release c = 1) /\
  in_i32 (pos_tgt c).

(** The writes of one call: no target and at most one of the words
    Shutdown, Switch On, Fault Reset; or one target together with Enable
    Operation, with or without the new-set-point bit. *)
Definition call_writes_ok (ev : list Event) : Prop :=
  (target_writes ev = [] /\
   (control_writes ev = [] \/ control_writes ev = [0x0006] \/
    control_writes ev = [0x0007] \/ control_writes ev = [0x0080])) \/
  (exists v, target_writes ev = [v] /\ in_i32 v /\
   (control_writes ev = [0x000F] \/ control_writes ev = [0x001F])).

(** The status word shows a live link, no fault and not switch-on
    disabled. *)
Definition healthy (inp : Drive_Inputs) : Prop :=
  status_word inp <> 0 /\
  Z.land (status_word inp) 0x0008 = 0 /\
  Z.land (status_word inp) 0x0040 = 0.

(** Calls with a healthy status, each at least one loop period after the
    previous one ([t_prev] is the time reference before the first). *)
Fixpoint ticks_ok (t_prev : Z) (tr : list Tick) : Prop :=
  match tr with
  | [] => True
  | (now, inp) :: tr' =>
    healthy inp /\ LOOP_PERIOD_MS <= s64 (now - t_prev) /\ ticks_ok now tr'
  end.

(** The status pattern (under mask 0x006F) that lets a stage advance. *)
Definition stage_pattern (s : Z) : Z :=
  if s =? 0 then 0x0021 else if s =? 1 then 0x0023 else 0x0027.

(** The effects of [n] calls under a persistent fault, starting with a
    pulse pending or not. *)
Fixpoint pulse_seq (pending : bool) (n : nat) : list (list Event) :=
  match n with
  | O => []
  | S k =>
    [WrControl (if pending then 0x0006 else 0x0080)]
    :: pulse_seq (negb pending) k
  end.


(** The producer is running: images mapped, stage Running, no cooldown
    pending, running target an [int32_t] value. *)
Definition producing (g : Globals) (c : Ctx) : Prop :=
  mapped g /\ st c = 3 /\ fault_cool_rem c <= 0 /\ comm_cool_rem c <= 0 /\
  in_i32 (pos_tgt c).

(** * Properties *)

(** ** Fixed-width arithmetic *)

Ltac pow2 :=
  change (2 ^ 16) with 65536 in *;
  change (2 ^ 31) with 2147483648 in *;
  change (2 ^ 32) with 4294967296 in *;
  change (2 ^ 63) with 9223372036854775808 in *;
  change (2 ^ 64) with 18446744073709551616 in *.

(** Unfold the field updates and reduce the projections, leaving the
    arithmetic alone. *)
Ltac ctx_simpl :=
  unfold set_st, set_t0, set_pos_tgt, set_dir, set_dwell_rem, set_ramp_rem,
    set_fe_warn, set_fault_cool_rem, set_comm_cool_rem, set_edge,
    set_need_release, set_control_word, set_target_position in *;
  cbn [st t0 pos_tgt dir dwell_rem ramp_rem fe_warn fault_cool_rem
       comm_cool_rem edge need_release control_word target_position
       status_word position_actual_value following_error_actual error_code
       g_in g_out fst snd] in *.

Lemma s32_id (x : Z) : in_i32 x -> s32 x = x.
Proof.
  unfold in_i32, s32; pow2; intros H.
  rewrite Z.mod_small; lia.
Qed.

Lemma s32_range (x : Z) : in_i32 (s32 x).
Proof.
  unfold in_i32, s32; pow2.
  pose proof (Z.mod_pos_bound (x + 2147483648) 4294967296). lia.
Qed.

Lemma s32_u32 (x : Z) : s32 (u32 x) = s32 x.
Proof.
  unfold s32, u32; pow2.
  now rewrite Zplus_mod_idemp_l.
Qed.

Lemma s32_u32_id (x : Z) : in_i32 x -> s32 (u32 x) = x.
Proof. intros H; rewrite s32_u32; now apply s32_id. Qed.

Lemma s64_id (x : Z) : - 2 ^ 63 <= x < 2 ^ 63 -> s64 x = x.
Proof.
  unfold s64; pow2; intros H.
  rewrite Z.mod_small; lia.
Qed.

Lemma u16_testbit (x n : Z) :
  0 <= n < 16 -> Z.testbit (u16 x) n = Z.testbit x n.
Proof. intros H; unfold u16; apply Z.mod_pow2_bits_low; lia. Qed.

Lemma within_limits_i32 (v : Z) : within_limits v -> in_i32 v.
Proof. unfold within_limits, in_i32, LIMIT_POS; pow2; lia. Qed.

(** A status word that matches a state pattern under a mask has, in every
    bit selected by a sub-mask, the bit of the pattern. *)
Lemma land_submask (sw m b v : Z) :
  Z.land m b = b -> Z.land sw m = v -> Z.land sw b = Z.land v b.
Proof.
  intros Hb Hv. rewrite <- Hv, <- Z.land_assoc, Hb. reflexivity.
Qed.

Lemma state_pattern_guards (sw v : Z) :
  Z.land sw 0x006F = v -> v <> 0 ->
  Z.land v 0x0008 = 0 -> Z.land v 0x0040 = 0 ->
  (sw =? 0) = false /\
  (Z.land sw 0x0008 =? 0) = true /\
  (Z.land sw 0x0040 =? 0) = true.
Proof.
  intros Hv Hnz H8 H40. repeat split.
  - apply Z.eqb_neq. intros ->. rewrite Z.land_0_l in Hv. congruence.
  - apply Z.eqb_eq. rewrite (land_submask sw 0x006F 0x0008 v); auto.
  - apply Z.eqb_eq. rewrite (land_submask sw 0x006F 0x0040 v); auto.
Qed.

(** ** The cycle function, branch by branch *)

Lemma Run_unmapped g now inp c out :
  g_in g = None \/ g_out g = None ->
  ServoTemplate_Run g now inp c out = (c, out, []).
Proof.
  unfold ServoTemplate_Run. intros [-> | ->]; [reflexivity|].
  now destruct (g_in g).
Qed.

Lemma mapped_inv g :
  mapped g -> exists a b, g_in g = Some a /\ g_out g = Some b.
Proof.
  unfold mapped, mappedb. destruct (g_in g) as [a|], (g_out g) as [b|];
    intros H; try discriminate. now exists a, b.
Qed.

Lemma Run_producer g now inp c out :
  producer_tick g now inp c ->
  ServoTemplate_Run g now inp c out = csp_producer now inp c out.
Proof.
  intros (Hg & Hsw & Hf & Hd & Hfc & Hcc & Hst & Hel).
  destruct (mapped_inv g Hg) as (a & b & Ha & Hb).
  unfold ServoTemplate_Run, elapsed. rewrite Ha, Hb, Hf, Hd, Hst.
  apply Z.eqb_neq in Hsw. rewrite Hsw.
  replace (0 <? fault_cool_rem c) with false by (symmetry; apply Z.ltb_ge; lia).
  replace (0 <? comm_cool_rem c) with false by (symmetry; apply Z.ltb_ge; lia).
  apply Z.leb_le in Hel. rewrite Hel. reflexivity.
Qed.

(** ** Comm-loss guard *)

(** C9. Comm-loss guard frame property: on a call that reads the all-zero
    status word, the cycle function stores the clock value in [t0] and does
    nothing else: the output image is unchanged, nothing is written or
    logged, and every other field of the context keeps its value. *)
Theorem comm_loss_guard_frame g now inp c out :
  mapped g ->
  status_word inp = 0 ->
  ServoTemplate_Run g now inp c out =
  (mkCtx (st c) now (pos_tgt c) (dir c) (dwell_rem c) (ramp_rem c)
         (fe_warn c) (fault_cool_rem c) (comm_cool_rem c) (edge c)
         (need_release c),
   out, []).
Proof.
  intros Hg Hsw.
  destruct (mapped_inv g Hg) as (a & b & Ha & Hb).
  unfold ServoTemplate_Run. rewrite Ha, Hb, Hsw. reflexivity.
Qed.

Lemma comm_loss_guard_frame_witness :
  mapped g_mapped /\
  status_word (mkInputs 0 1234 56 0) = 0 /\
  ServoTemplate_Run g_mapped 77 (mkInputs 0 1234 56 0)
    (mkCtx 3 70 1500 1 0 120 1 0 0 16 1) (mkOutputs 31 1500) =
  (mkCtx 3 77 1500 1 0 120 1 0 0 16 1, mkOutputs 31 1500, []).
Proof.
  split; [reflexivity|]. split; [reflexivity|].
  apply (comm_loss_guard_frame g_mapped 77 (mkInputs 0 1234 56 0)
           (mkCtx 3 70 1500 1 0 120 1 0 0 16 1) (mkOutputs 31 1500));
    reflexivity.
Defined.

(** ** Initialisation *)

Lemma run_unmapped g tr :
  g_in g = None \/ g_out g = None ->
  forall c out, run g c out tr = (c, out, map (fun _ => []) tr).
Proof.
  intros Hg. induction tr as [|[now inp] tr IH]; intros c out; simpl.
  - reflexivity.
  - rewrite (Run_unmapped g now inp c out Hg), IH. reflexivity.
Qed.

(** C10. [ServoTemplate_Init] returns 0 for every [map_io] implementation
    and every argument, whether or not the ENI sizes match the structs and
    whether or not the mapping succeeds; a size mismatch only logs a
    warning.  When [map_io] fails both global pointers are NULL afterwards,
    and from then on every call of the cycle function, on any clock value
    and input image, leaves the context and the output image as they are
    and has no effect.  The [map_io] of the template always fails. *)
Theorem Init_returns_zero_and_failed_map_is_noop
    (mio : MapIo) (slave ib ob ioff ooff : Z) :
  let r := ServoTemplate_Init_with mio slave ib ob ioff ooff in
  fst (fst r) = 0 /\
  (ib <> DRIVE_INPUTS_BITS \/ ob <> DRIVE_OUTPUTS_BITS ->
     In WarnPdoSize (snd r)) /\
  (map_rc (mio slave ioff ooff) <> 0 ->
     snd (fst r) = globals0 /\
     forall tr c out,
       run (snd (fst r)) c out tr = (c, out, map (fun _ => []) tr)) /\
  snd (fst (ServoTemplate_Init slave ib ob ioff ooff)) = globals0.
Proof.
  unfold ServoTemplate_Init, ServoTemplate_Init_with. cbv zeta.
  split; [|split; [|split]].
  - destruct (negb (map_rc _ =? 0)); reflexivity.
  - intros Hsz.
    assert (E : negb (ib =? DRIVE_INPUTS_BITS)
                || negb (ob =? DRIVE_OUTPUTS_BITS) = true).
    { destruct Hsz as [H|H]; apply Z.eqb_neq in H; rewrite H;
        [reflexivity | apply orb_true_r]. }
    rewrite E. destruct (negb (map_rc _ =? 0)); cbn [snd]; now left.
  - intros Hrc. apply Z.eqb_neq in Hrc. rewrite Hrc. simpl.
    split; [reflexivity|]. intros tr c out.
    apply run_unmapped. now left.
  - reflexivity.
Qed.

Lemma Init_returns_zero_and_failed_map_is_noop_witness :
  fst (fst (ServoTemplate_Init 0 100 50 0 96)) = 0 /\
  (100 <> DRIVE_INPUTS_BITS \/ 50 <> DRIVE_OUTPUTS_BITS) /\
  In WarnPdoSize (snd (ServoTemplate_Init 0 100 50 0 96)) /\
  map_rc (map_io 0 0 96) <> 0 /\
  snd (fst (ServoTemplate_Init 0 100 50 0 96)) = globals0 /\
  run (snd (fst (ServoTemplate_Init 0 100 50 0 96))) ctx0 out0
      [(1, sw_only 0x0021); (2, sw_only 0x0023)] = (ctx0, out0, [[]; []]).
Proof.
  destruct (Init_returns_zero_and_failed_map_is_noop map_io 0 100 50 0 96)
    as (Hrc & Hwarn & Hfail & _).
  assert (Hsz : 100 <> DRIVE_INPUTS_BITS \/ 50 <> DRIVE_OUTPUTS_BITS)
    by (left; unfold DRIVE_INPUTS_BITS; lia).
  assert (Hne : map_rc (map_io 0 0 96) <> 0) by (simpl; lia).
  destruct (Hfail Hne) as (Hg & Hrun).
  split; [exact Hrc|]. split; [exact Hsz|]. split; [exact (Hwarn Hsz)|].
  split; [exact Hne|]. split; [exact Hg|].
  apply (Hrun [(1, sw_only 0x0021); (2, sw_only 0x0023)] ctx0 out0).
Defined.

(** ** The producer tick, step by step *)

Lemma clamp_limits_inside c :
  within_limits (pos_tgt c) -> clamp_limits c = c.
Proof.
  unfold within_limits, clamp_limits. intros H.
  replace (LIMIT_POS <? pos_tgt c) with false
    by (symmetry; apply Z.ltb_ge; lia).
  replace (pos_tgt c <? - LIMIT_POS) with false
    by (symmetry; apply Z.ltb_ge; lia).
  reflexivity.
Qed.

(** Whatever the target before the clamp, it is inside the limits after. *)
Lemma clamp_limits_within c : within_limits (pos_tgt (clamp_limits c)).
Proof.
  unfold within_limits, clamp_limits, LIMIT_POS.
  destruct (200000 <? pos_tgt c) eqn:Hhi; simpl.
  - lia.
  - apply Z.ltb_ge in Hhi.
    destruct (pos_tgt c <? -200000) eqn:Hlo; simpl.
    + lia.
    + apply Z.ltb_ge in Hlo. lia.
Qed.

Lemma advance_target_dwell c :
  0 < dwell_rem c -> pos_tgt (advance_target c) = pos_tgt c.
Proof.
  intros H. unfold advance_target.
  replace (0 <? dwell_rem c) with true by (symmetry; apply Z.ltb_lt; lia).
  simpl. destruct (dwell_rem c - 1 =? 0); reflexivity.
Qed.

Lemma advance_target_moving c :
  dwell_rem c <= 0 ->
  advance_target c =
  clamp_limits
    (set_pos_tgt (s32 (pos_tgt c + tick_delta (dir c) (ramp_rem c)))
       (if 0 <? ramp_rem c then set_ramp_rem (ramp_rem c - 1) c else c)).
Proof.
  intros H. unfold advance_target.
  replace (0 <? dwell_rem c) with false by (symmetry; apply Z.ltb_ge; lia).
  destruct (0 <? ramp_rem c); reflexivity.
Qed.

(** The producer tick in terms of [advance_target]: the context, the
    output image and the effects it leaves. *)
Lemma csp_producer_eq now inp c out :
  csp_producer now inp c out =
  let c' := advance_target c in
  let e  := if pos_tgt c' =? pos_tgt c
            then edge c' else u16 (Z.lxor (edge c') 0x0010) in
  let m  := fe_monitor (fe_warn c')
              (s32 (u32 (following_error_actual inp))) in
  (mkCtx (st c') now (pos_tgt c') (dir c') (dwell_rem c') (ramp_rem c')
         (fst m) (fault_cool_rem c') (comm_cool_rem c') e (need_release c'),
   mkOutputs (u16 (Z.lor 0x000F e)) (s32 (u32 (pos_tgt c'))),
   [WrTarget (s32 (u32 (pos_tgt c'))); WrControl (u16 (Z.lor 0x000F e))]
   ++ snd m).
Proof.
  unfold csp_producer. cbv zeta.
  destruct (pos_tgt (advance_target c) =? pos_tgt c); simpl;
    match goal with
    | |- context [fe_monitor ?a ?b] => destruct (fe_monitor a b)
    end; reflexivity.
Qed.

(** The dwell / ramp / clamp step touches neither the latch, the edge
    bit, the cooldowns, the stage nor the pulse flag. *)
Lemma advance_target_frame c :
  let c' := advance_target c in
  st c' = st c /\ t0 c' = t0 c /\ fe_warn c' = fe_warn c /\
  fault_cool_rem c' = fault_cool_rem c /\
  comm_cool_rem c' = comm_cool_rem c /\
  edge c' = edge c /\ need_release c' = need_release c.
Proof.
  unfold advance_target, clamp_limits. cbv zeta.
  destruct (0 <? dwell_rem c).
  - simpl. destruct (dwell_rem c - 1 =? 0); simpl; repeat split.
  - destruct (0 <? ramp_rem c); simpl;
      repeat match goal with
             | |- context [if ?b then _ else _] => destruct b; simpl
             end; repeat split.
Qed.

(** ** Ramp arithmetic *)

(** For a direction in -1..1 the scaling of the ramp divides exactly (the
    step size equals the ramp length) and nothing wraps. *)
Lemma ramp_quot d r :
  -1 <= d <= 1 -> 0 < r <= 300 ->
  Z.quot (s32 (s32 (d * 300) * s32 (s32 (300 - r) + 1))) 300 = d * (301 - r).
Proof.
  intros Hd Hr.
  assert (Hb : -300 <= d * (301 - r) <= 300) by nia.
  rewrite (s32_id (d * 300)) by (unfold in_i32; pow2; lia).
  rewrite (s32_id (300 - r)) by (unfold in_i32; pow2; lia).
  rewrite (s32_id (300 - r + 1)) by (unfold in_i32; pow2; lia).
  replace (d * 300 * (300 - r + 1)) with (d * (301 - r) * 300) by lia.
  rewrite s32_id by (unfold in_i32; pow2; lia).
  apply Z.quot_mul. lia.
Qed.

(** With a direction of +1 or -1 the scaled increment during the ramp is
    the direction times the number of ramp ticks used so far. *)
Lemma ramp_scaled_unit d r :
  d = 1 \/ d = -1 -> 0 < r <= RAMP_MS ->
  ramp_scaled d r = d * (RAMP_MS - r + 1).
Proof.
  unfold ramp_scaled, RAMP_MS, INC_STEP. intros Hd Hr. cbv zeta.
  change (0 <? 300) with true. cbv iota.
  rewrite ramp_quot by lia.
  replace (d * (301 - r) =? 0) with false
    by (symmetry; apply Z.eqb_neq; nia).
  cbv [andb]. lia.
Qed.

(** ** Following-error monitor, case by case *)

Lemma fe_thresholds : fe_warn_th = 16000 /\ fe_ok_th = 8000.
Proof. split; reflexivity. Qed.

Ltac fe_cases :=
  unfold fe_monitor;
  repeat match goal with
         | |- context [?a <? ?b] =>
           let E := fresh "E" in
           destruct (a <? b) eqn:E;
           [apply Z.ltb_lt in E | apply Z.ltb_ge in E]
         end;
  cbv [andb orb negb];
  destruct fe_thresholds as [Hw Hk]; rewrite ?Hw, ?Hk in *;
  try reflexivity; try lia.

Lemma fe_monitor_warn fe :
  fe_warn_th < Z.abs fe -> fe_monitor 0 fe = (1, [WarnFeHigh fe]).
Proof. intros H. change (0 =? 0) with true. fe_cases. Qed.

Lemma fe_monitor_idle fe :
  Z.abs fe <= fe_warn_th -> fe_monitor 0 fe = (0, []).
Proof. intros H. change (0 =? 0) with true. fe_cases. Qed.

Lemma fe_monitor_recover l fe :
  l <> 0 -> Z.abs fe < fe_ok_th -> fe_monitor l fe = (0, [DbgFeBack fe]).
Proof.
  intros Hl H. unfold fe_monitor.
  apply Z.eqb_neq in Hl. rewrite Hl. fe_cases.
Qed.

Lemma fe_monitor_hold l fe :
  l <> 0 -> fe_ok_th <= Z.abs fe -> fe_monitor l fe = (l, []).
Proof.
  intros Hl H. unfold fe_monitor.
  apply Z.eqb_neq in Hl. rewrite Hl. fe_cases.
Qed.

(** ** Enable sequence *)

Section EnableScenario.

(** Clock values of the six calls and what each call finds in the input
    image. *)
Variables n0 n1 n2 n3 n4 n5 : Z.
Variables i0 i1 i2 i3 i4 i5 : Drive_Inputs.
Variable p : Z.

Hypothesis Hsw0 : status_word i0 = 0.
Hypothesis Hsw1 : Z.land (status_word i1) 0x006F = 0x0021.
Hypothesis Hsw2 : Z.land (status_word i2) 0x006F = 0x0023.
Hypothesis Hsw3 : Z.land (status_word i3) 0x006F = 0x0023.
Hypothesis Hsw4 : Z.land (status_word i4) 0x006F = 0x0027.
Hypothesis Hsw5 : Z.land (status_word i5) 0x006F = 0x0027.
Hypothesis Hp3 : position_actual_value i3 = p.
Hypothesis Hp4 : position_actual_value i4 = p.
Hypothesis Hp : - LIMIT_POS <= p < LIMIT_POS.
Hypothesis Hfe : Z.abs (following_error_actual i5) <= fe_warn_th.
Hypothesis Hclk : LOOP_PERIOD_MS <= n5 - n4 < 2 ^ 63.

Let c1 := mkCtx 0 n0 0 1 0 0 0 0 0 0 0.
Let c2 := mkCtx 1 n0 0 1 0 0 0 0 0 0 0.
Let c3 := mkCtx 2 n0 0 1 0 0 0 0 0 0 0.
Let c4 := mkCtx 2 n0 p 1 0 0 0 0 0 0 0.
Let c5 := mkCtx 3 n4 p 1 0 RAMP_MS 0 0 0 0 0.
Let c6 := mkCtx 3 n5 (p + 1) 1 0 (RAMP_MS - 1) 0 0 0 0x0010 0.

Local Ltac guards H :=
  let G := fresh in
  pose proof (state_pattern_guards _ _ H) as G;
  destruct G as (-> & -> & ->);
  [ lia | reflexivity | reflexivity | ].

(** C5. Enable-sequence scenario, from the initial context: a call that
    reads status 0x0000 does nothing (it only stores the clock); status
    0x0021 (under mask 0x006F) gives control word 0x0006 and stage
    SwitchingOn; 0x0023 gives 0x0007 and stage Aligning; a call in
    Aligning sets the running target to the actual position [p], writes
    it and control word 0x000F; at 0x0027 the stage becomes Running with
    the ramp armed; the first target produced in Running is [p + 1], a
    positive step smaller than [INC_STEP]. *)
Theorem enable_sequence_scenario :
  ServoTemplate_Run g_mapped n0 i0 ctx0 out0 = (c1, out0, []) /\
  ServoTemplate_Run g_mapped n1 i1 c1 out0 =
    (c2, mkOutputs 0x0006 0, [WrControl 0x0006; DbgReadyToSwitchOn]) /\
  ServoTemplate_Run g_mapped n2 i2 c2 (mkOutputs 0x0006 0) =
    (c3, mkOutputs 0x0007 0, [WrControl 0x0007; DbgSwitchedOn]) /\
  ServoTemplate_Run g_mapped n3 i3 c3 (mkOutputs 0x0007 0) =
    (c4, mkOutputs 0x000F p, [WrTarget p; WrControl 0x000F]) /\
  ServoTemplate_Run g_mapped n4 i4 c4 (mkOutputs 0x000F p) =
    (c5, mkOutputs 0x000F p,
     [WrTarget p; WrControl 0x000F; DbgOperationEnabled]) /\
  ServoTemplate_Run g_mapped n5 i5 c5 (mkOutputs 0x000F p) =
    (c6, mkOutputs 0x001F (p + 1), [WrTarget (p + 1); WrControl 0x001F]) /\
  0 < pos_tgt c6 - p < INC_STEP.
Proof.
  assert (Hpi : in_i32 p)
    by (unfold in_i32, LIMIT_POS in *; pow2; lia).
  assert (Hp1 : in_i32 (p + 1))
    by (unfold in_i32, LIMIT_POS in *; pow2; lia).
  repeat apply conj.
  - unfold ServoTemplate_Run; simpl. rewrite Hsw0. reflexivity.
  - unfold ServoTemplate_Run; simpl. guards Hsw1.
    rewrite Hsw1. reflexivity.
  - unfold ServoTemplate_Run; simpl. guards Hsw2.
    rewrite Hsw2. reflexivity.
  - unfold ServoTemplate_Run; simpl. guards Hsw3.
    rewrite Hsw3, Hp3. simpl.
    unfold set_target_position, set_control_word, set_pos_tgt; simpl.
    rewrite !s32_u32, !s32_id by (try apply s32_range; assumption).
    reflexivity.
  - unfold ServoTemplate_Run; simpl. guards Hsw4.
    rewrite Hsw4, Hp4. simpl.
    unfold set_target_position, set_control_word, set_pos_tgt; simpl.
    rewrite !s32_u32, !s32_id by (try apply s32_range; assumption).
    reflexivity.
  - rewrite Run_producer, csp_producer_eq.
    + rewrite advance_target_moving by (simpl; lia).
      unfold c5, c6, tick_delta. ctx_simpl.
      change (0 <? RAMP_MS) with true. cbv iota.
      change (ramp_scaled 1 RAMP_MS) with 1.
      rewrite (s32_id (p + 1)) by assumption.
      rewrite clamp_limits_inside
        by (unfold within_limits, LIMIT_POS in *; ctx_simpl; lia).
      ctx_simpl.
      replace (p + 1 =? p) with false by (symmetry; apply Z.eqb_neq; lia).
      rewrite !(s32_u32_id (p + 1)) by assumption.
      rewrite s32_u32.
      pose proof Hfe as Hfe'. change fe_warn_th with 16000 in Hfe'.
      assert (Hfi : in_i32 (following_error_actual i5))
        by (unfold in_i32; pow2; lia).
      rewrite (s32_id _ Hfi), (fe_monitor_idle _ Hfe).
      reflexivity.
    + pose proof (state_pattern_guards _ _ Hsw5) as (G0 & G8 & G40);
        [lia | reflexivity | reflexivity |].
      apply Z.eqb_neq in G0. apply Z.eqb_eq in G8, G40.
      unfold producer_tick, c5; simpl.
      rewrite s64_id by (unfold LOOP_PERIOD_MS in *; pow2; lia).
      repeat split; try assumption; try reflexivity; lia.
  - unfold c6; ctx_simpl. lia.
  - unfold c6, INC_STEP; ctx_simpl. lia.
Qed.

End EnableScenario.

Lemma enable_sequence_scenario_witness :
  ServoTemplate_Run g_mapped 10 (mkInputs 0x0000 1000 0 0) ctx0 out0 =
    (mkCtx 0 10 0 1 0 0 0 0 0 0 0, out0, []) /\
  ServoTemplate_Run g_mapped 11 (mkInputs 0x0231 1000 0 0)
      (mkCtx 0 10 0 1 0 0 0 0 0 0 0) out0 =
    (mkCtx 1 10 0 1 0 0 0 0 0 0 0, mkOutputs 0x0006 0,
     [WrControl 0x0006; DbgReadyToSwitchOn]) /\
  ServoTemplate_Run g_mapped 12 (mkInputs 0x0233 1000 0 0)
      (mkCtx 1 10 0 1 0 0 0 0 0 0 0)
      (mkOutputs 0x0006 0) =
    (mkCtx 2 10 0 1 0 0 0 0 0 0 0, mkOutputs 0x0007 0,
     [WrControl 0x0007; DbgSwitchedOn]) /\
  ServoTemplate_Run g_mapped 13 (mkInputs 0x0233 1000 0 0)
      (mkCtx 2 10 0 1 0 0 0 0 0 0 0)
      (mkOutputs 0x0007 0) =
    (mkCtx 2 10 1000 1 0 0 0 0 0 0 0, mkOutputs 0x000F 1000,
     [WrTarget 1000; WrControl 0x000F]) /\
  ServoTemplate_Run g_mapped 14 (mkInputs 0x0237 1000 0 0)
      (mkCtx 2 10 1000 1 0 0 0 0 0 0 0)
      (mkOutputs 0x000F 1000) =
    (mkCtx 3 14 1000 1 0 300 0 0 0 0 0, mkOutputs 0x000F 1000,
     [WrTarget 1000; WrControl 0x000F; DbgOperationEnabled]) /\
  ServoTemplate_Run g_mapped 15 (mkInputs 0x0237 1000 12 0)
      (mkCtx 3 14 1000 1 0 300 0 0 0 0 0)
      (mkOutputs 0x000F 1000) =
    (mkCtx 3 15 1001 1 0 299 0 0 0 0x0010 0, mkOutputs 0x001F 1001,
     [WrTarget 1001; WrControl 0x001F]) /\
  0 < 1001 - 1000 < INC_STEP.
Proof.
  apply (enable_sequence_scenario 10 11 12 13 14 15
           (mkInputs 0x0000 1000 0 0) (mkInputs 0x0231 1000 0 0)
           (mkInputs 0x0233 1000 0 0) (mkInputs 0x0233 1000 0 0)
           (mkInputs 0x0237 1000 0 0) (mkInputs 0x0237 1000 12 0) 1000);
    try reflexivity;
    unfold LIMIT_POS, LOOP_PERIOD_MS; change fe_warn_th with 16000;
    pow2; simpl; lia.
Defined.

(** ** Ramp monotonicity *)

Lemma tick_delta_ramp d r :
  d = 1 \/ d = -1 -> 0 < r <= RAMP_MS ->
  tick_delta d r = d * (RAMP_MS - r + 1).
Proof.
  intros Hd Hr. unfold tick_delta.
  replace (0 <? r) with true by (symmetry; apply Z.ltb_lt; lia).
  now apply ramp_scaled_unit.
Qed.

Lemma tick_delta_full d :
  d = 1 \/ d = -1 -> tick_delta d 0 = d * INC_STEP.
Proof.
  intros Hd. unfold tick_delta, INC_STEP. change (0 <? 0) with false.
  cbv iota. apply s32_id. unfold in_i32; pow2. lia.
Qed.

(** C6. Ramp monotonicity.  With the axis moving (direction +1 or -1) and
    the ramp countdown [r] active, the increment of the tick is
    [d * INC_STEP * used / RAMP_MS] with [used = RAMP_MS - r + 1] running
    from 1 to [RAMP_MS], replaced by +1 or -1 when the division gives zero;
    its magnitude never decreases from one ramp tick to the next, it is at
    least one count, it equals the full step [INC_STEP] exactly on the tick
    that brings the countdown to zero, and the step after the ramp is the
    full step.  On such a tick the producer adds this increment to the
    running target and decrements the countdown by one. *)
Theorem ramp_monotonicity (d : Z) :
  d = 1 \/ d = -1 ->
  (forall r, 0 < r <= RAMP_MS ->
     let used := RAMP_MS - r + 1 in
     let q := Z.quot (d * INC_STEP * used) RAMP_MS in
     1 <= used <= RAMP_MS /\
     tick_delta d r = (if q =? 0 then (if 0 <? d then 1 else -1) else q) /\
     1 <= Z.abs (tick_delta d r)) /\
  (forall r, 1 < r <= RAMP_MS ->
     Z.abs (tick_delta d r) <= Z.abs (tick_delta d (r - 1))) /\
  (forall r, 0 < r <= RAMP_MS ->
     (Z.abs (tick_delta d r) = INC_STEP <-> r - 1 = 0)) /\
  Z.abs (tick_delta d 0) = INC_STEP /\
  (forall g now inp c out,
     producer_tick g now inp c ->
     dir c = d -> dwell_rem c <= 0 -> 0 < ramp_rem c <= RAMP_MS ->
     within_limits (pos_tgt c + tick_delta d (ramp_rem c)) ->
     let c' := fst (fst (ServoTemplate_Run g now inp c out)) in
     pos_tgt c' = pos_tgt c + tick_delta d (ramp_rem c) /\
     ramp_rem c' = ramp_rem c - 1 /\
     dir c' = d).
Proof.
  intros Hd. split; [|split; [|split; [|split]]].
  - intros r Hr used q. split; [unfold used, RAMP_MS in *; lia|].
    rewrite (tick_delta_ramp d r Hd Hr).
    assert (Hq : q = d * (RAMP_MS - r + 1)).
    { unfold q, used, INC_STEP, RAMP_MS.
      replace (d * 300 * (300 - r + 1)) with (d * (300 - r + 1) * 300) by lia.
      apply Z.quot_mul. lia. }
    split.
    + rewrite Hq.
      replace (d * (RAMP_MS - r + 1) =? 0) with false; [reflexivity|].
      symmetry. apply Z.eqb_neq. unfold RAMP_MS in *. nia.
    + unfold RAMP_MS in *. destruct Hd; subst d; lia.
  - intros r Hr.
    rewrite (tick_delta_ramp d r), (tick_delta_ramp d (r - 1)) by (auto; lia).
    unfold RAMP_MS in *. destruct Hd; subst d; lia.
  - intros r Hr. rewrite (tick_delta_ramp d r Hd Hr).
    unfold RAMP_MS, INC_STEP in *. destruct Hd; subst d; lia.
  - rewrite (tick_delta_full d Hd). unfold INC_STEP.
    destruct Hd; subst d; lia.
  - intros g now inp c out Hp Hdir Hdw Hr Hlim.
    rewrite (Run_producer g now inp c out Hp), csp_producer_eq.
    cbv zeta. ctx_simpl.
    rewrite advance_target_moving by assumption.
    rewrite Hdir.
    replace (0 <? ramp_rem c) with true by (symmetry; apply Z.ltb_lt; lia).
    rewrite s32_id by now apply within_limits_i32.
    rewrite clamp_limits_inside by (ctx_simpl; assumption).
    ctx_simpl. auto.
Qed.

Lemma ramp_monotonicity_witness :
  (-1 = 1 \/ -1 = -1) /\
  tick_delta (-1) 300 = -1 /\
  Z.abs (tick_delta (-1) 150) <= Z.abs (tick_delta (-1) 149) /\
  (Z.abs (tick_delta (-1) 1) = INC_STEP <-> 1 - 1 = 0) /\
  pos_tgt (fst (fst (ServoTemplate_Run g_mapped 8 (sw_only 0x0027)
                       (mkCtx 3 7 5000 (-1) 0 120 0 0 0 16 0)
                       (mkOutputs 0x001F 5000)))) =
    5000 + tick_delta (-1) 120.
Proof.
  assert (Hd : -1 = 1 \/ -1 = -1) by (right; reflexivity).
  destruct (ramp_monotonicity (-1) Hd) as (H1 & H2 & H3 & _ & H5).
  split; [exact Hd|]. split.
  - destruct (H1 300) as (_ & E & _); [unfold RAMP_MS; lia|]. exact E.
  - split; [apply (H2 150); unfold RAMP_MS; lia|].
    split; [apply (H3 1); unfold RAMP_MS; lia|].
    destruct (H5 g_mapped 8 (sw_only 0x0027)
                (mkCtx 3 7 5000 (-1) 0 120 0 0 0 16 0)
                (mkOutputs 0x001F 5000)) as (E & _).
    + vm_compute. repeat split; discriminate.
    + reflexivity.
    + simpl; lia.
    + unfold RAMP_MS; simpl; lia.
    + vm_compute. split; discriminate.
    + exact E.
Defined.

(** ** Following-error hysteresis *)

Lemma fe_trace_app l1 l2 latched :
  fe_trace latched (l1 ++ l2) =
  let '(a, ev1) := fe_trace latched l1 in
  let '(b, ev2) := fe_trace a l2 in
  (b, ev1 ++ ev2).
Proof.
  revert latched. induction l1 as [|fe l1 IH]; intros latched; simpl.
  - now destruct (fe_trace latched l2).
  - destruct (fe_monitor latched fe) as [a ev].
    rewrite IH. destruct (fe_trace a l1) as [b ev1].
    destruct (fe_trace b l2) as [c ev2]. now rewrite app_assoc.
Qed.

(** No log line and no change of the latch while unlatched and not above
    the warning threshold. *)
Lemma fe_trace_idle l :
  Forall (fun fe => Z.abs fe <= fe_warn_th) l -> fe_trace 0 l = (0, []).
Proof.
  induction 1 as [|fe l Hfe _ IH]; simpl; [reflexivity|].
  now rewrite (fe_monitor_idle fe Hfe), IH.
Qed.

(** No log line and no change of the latch while latched and not below
    the recovery threshold. *)
Lemma fe_trace_hold l :
  Forall (fun fe => fe_ok_th <= Z.abs fe) l -> fe_trace 1 l = (1, []).
Proof.
  induction 1 as [|fe l Hfe _ IH]; simpl; [reflexivity|].
  rewrite (fe_monitor_hold 1 fe) by (auto; lia). now rewrite IH.
Qed.

(** The producer tick runs the monitor on the following error it reads and
    logs nothing else. *)
Lemma csp_producer_fe now inp c out :
  let r := csp_producer now inp c out in
  let m := fe_monitor (fe_warn c) (s32 (u32 (following_error_actual inp))) in
  fe_warn (fst (fst r)) = fst m /\
  exists v cw, snd r = [WrTarget v; WrControl cw] ++ snd m.
Proof.
  rewrite csp_producer_eq. cbv zeta.
  destruct (advance_target_frame c) as (_ & _ & Hfw & _).
  rewrite Hfw. split; [reflexivity|]. do 2 eexists. reflexivity.
Qed.

(** C7. Following-error hysteresis.  One evaluation of the monitor:
    unlatched and [|fe|] above 80% of the window latches and logs one
    warning; unlatched otherwise stays unlatched and silent; latched and
    [|fe|] below 40% of the window unlatches and logs one recovery;
    latched otherwise stays latched and silent.  Over a sequence of
    samples, starting unlatched: samples not above the warning threshold,
    one sample [a] above it, samples not below the recovery threshold, one
    sample [b] below it, samples not above the warning threshold give
    exactly one warning (for [a]) and one recovery (for [b]); and samples
    that stay between the two thresholds never change the latch nor log. *)
Theorem fe_hysteresis :
  fe_warn_th = FE_WINDOW_COUNTS * 80 / 100 /\
  fe_ok_th = FE_WINDOW_COUNTS * 40 / 100 /\
  (forall fe,
     (fe_warn_th < Z.abs fe -> fe_monitor 0 fe = (1, [WarnFeHigh fe])) /\
     (Z.abs fe <= fe_warn_th -> fe_monitor 0 fe = (0, [])) /\
     (Z.abs fe < fe_ok_th -> fe_monitor 1 fe = (0, [DbgFeBack fe])) /\
     (fe_ok_th <= Z.abs fe -> fe_monitor 1 fe = (1, []))) /\
  (forall l1 a l2 b l3,
     Forall (fun fe => Z.abs fe <= fe_warn_th) l1 ->
     fe_warn_th < Z.abs a ->
     Forall (fun fe => fe_ok_th <= Z.abs fe) l2 ->
     Z.abs b < fe_ok_th ->
     Forall (fun fe => Z.abs fe <= fe_warn_th) l3 ->
     fe_trace 0 (l1 ++ a :: l2 ++ b :: l3) =
     (0, [WarnFeHigh a; DbgFeBack b])) /\
  (forall l,
     Forall (fun fe => fe_ok_th <= Z.abs fe <= fe_warn_th) l ->
     fe_trace 0 l = (0, []) /\ fe_trace 1 l = (1, [])) /\
  (forall g now inp c out,
     producer_tick g now inp c ->
     in_i32 (following_error_actual inp) ->
     let r := ServoTemplate_Run g now inp c out in
     let m := fe_monitor (fe_warn c) (following_error_actual inp) in
     fe_warn (fst (fst r)) = fst m /\
     exists v cw, snd r = [WrTarget v; WrControl cw] ++ snd m).
Proof.
  split; [reflexivity|]. split; [reflexivity|]. split; [|split; [|split]].
  - intros fe. repeat split.
    + apply fe_monitor_warn.
    + apply fe_monitor_idle.
    + apply fe_monitor_recover. lia.
    + apply fe_monitor_hold. lia.
  - intros l1 a l2 b l3 H1 Ha H2 Hb H3.
    rewrite fe_trace_app, (fe_trace_idle l1 H1).
    change (a :: l2 ++ b :: l3) with ([a] ++ l2 ++ [b] ++ l3).
    rewrite fe_trace_app. simpl (fe_trace 0 [a]).
    rewrite (fe_monitor_warn a Ha).
    rewrite fe_trace_app, (fe_trace_hold l2 H2).
    rewrite fe_trace_app. simpl (fe_trace 1 [b]).
    rewrite (fe_monitor_recover 1 b) by (auto; lia).
    rewrite (fe_trace_idle l3 H3). reflexivity.
  - intros l Hl. split.
    + apply fe_trace_idle. eapply Forall_impl; [|exact Hl].
      intros fe Hfe; simpl in Hfe. lia.
    + apply fe_trace_hold. eapply Forall_impl; [|exact Hl].
      intros fe Hfe; simpl in Hfe. lia.
  - intros g now inp c out Hp Hfe.
    rewrite (Run_producer g now inp c out Hp).
    pose proof (csp_producer_fe now inp c out) as H. cbv zeta in H.
    rewrite (s32_u32_id _ Hfe) in H. exact H.
Qed.

Lemma fe_hysteresis_witness :
  fe_trace 0 ([100; -15000] ++ 17000 :: [12000; -20000; 9000]
              ++ (-7999) :: [3000; 16000]) =
  (0, [WarnFeHigh 17000; DbgFeBack (-7999)]) /\
  fe_trace 1 [8000; -16000; 12000] = (1, []).
Proof.
  destruct fe_hysteresis as (_ & _ & _ & Hone & Hband & _).
  split.
  - apply Hone;
      repeat (apply Forall_cons || apply Forall_nil);
      change fe_warn_th with 16000; change fe_ok_th with 8000; simpl; lia.
  - apply (Hband [8000; -16000; 12000]).
    repeat (apply Forall_cons || apply Forall_nil);
      change fe_warn_th with 16000; change fe_ok_th with 8000; simpl; lia.
Defined.

(** ** New-set-point edge *)

Lemma advance_target_i32 c :
  in_i32 (pos_tgt c) -> in_i32 (pos_tgt (advance_target c)).
Proof.
  intros H. destruct (Z.ltb_spec 0 (dwell_rem c)) as [Hd|Hd].
  - now rewrite advance_target_dwell.
  - rewrite advance_target_moving by assumption.
    apply within_limits_i32, clamp_limits_within.
Qed.

Lemma fe_monitor_log l fe :
  control_writes (snd (fe_monitor l fe)) = [] /\
  target_writes (snd (fe_monitor l fe)) = [].
Proof.
  unfold fe_monitor.
  repeat match goal with
         | |- context [if ?b then _ else _] => destruct b
         end; split; reflexivity.
Qed.

Lemma edge_toggle_bit4 e :
  Z.testbit (u16 (Z.lxor e 0x0010)) 4 = negb (Z.testbit e 4).
Proof.
  rewrite u16_testbit by lia. rewrite Z.lxor_spec.
  change (Z.testbit 16 4) with true. now destruct (Z.testbit e 4).
Qed.

Lemma enable_op_bit4 e :
  Z.testbit (u16 (Z.lor 0x000F e)) 4 = Z.testbit e 4.
Proof.
  rewrite u16_testbit by lia. rewrite Z.lor_spec. reflexivity.
Qed.

(** One producer tick that starts with the previous target in the output
    image. *)
Lemma csp_producer_edge now inp c out c' out' ev :
  in_i32 (pos_tgt c) ->
  target_position out = pos_tgt c ->
  csp_producer now inp c out = (c', out', ev) ->
  target_writes ev = [target_position out'] /\
  control_writes ev = [control_word out'] /\
  control_word out' = u16 (Z.lor 0x000F (edge c')) /\
  Z.testbit (control_word out') 4 = Z.testbit (edge c') 4 /\
  (Z.testbit (edge c') 4 = negb (Z.testbit (edge c) 4) <->
   target_position out' <> target_position out) /\
  (target_position out' = target_position out -> edge c' = edge c).
Proof.
  intros Hi Hprev Hrun.
  rewrite csp_producer_eq in Hrun. cbv zeta in Hrun.
  destruct (advance_target_frame c) as (_ & _ & _ & _ & _ & He & _).
  pose proof (advance_target_i32 c Hi) as Hi'.
  rewrite He, (s32_u32_id _ Hi') in Hrun.
  set (a := advance_target c) in *.
  set (m := fe_monitor (fe_warn a) _) in *.
  destruct (fe_monitor_log (fe_warn a)
              (s32 (u32 (following_error_actual inp)))) as [Hc Ht].
  fold m in Hc, Ht.
  injection Hrun as <- <- <-. ctx_simpl.
  repeat apply conj.
  - simpl. now rewrite Ht.
  - simpl. now rewrite Hc.
  - reflexivity.
  - apply enable_op_bit4.
  - rewrite Hprev.
    destruct (Z.eqb_spec (pos_tgt a) (pos_tgt c)) as [E|E].
    + intros Hb. exfalso. now destruct (Z.testbit (edge c) 4).
    + intros _. exact E.
  - rewrite Hprev.
    destruct (Z.eqb_spec (pos_tgt a) (pos_tgt c)) as [E|E].
    + intros Hne. contradiction.
    + intros _. apply edge_toggle_bit4.
  - rewrite Hprev. intros E. apply Z.eqb_eq in E. now rewrite E.
Qed.

(** Every call keeps [image_inv]: the stage becomes Running only in the
    call of the aligning stage that writes the target, and a producer tick
    writes the target it computed. *)
Lemma Run_image_inv g now inp c out :
  image_inv c out ->
  let r := ServoTemplate_Run g now inp c out in
  image_inv (fst (fst r)) (snd (fst r)).
Proof.
  unfold image_inv. intros [Hi Ht]. unfold ServoTemplate_Run.
  destruct (g_in g); [|now split].
  destruct (g_out g); [|now split].
  destruct (status_word inp =? 0); [now split|].
  destruct (negb (Z.land (status_word inp) 8 =? 0)).
  { destruct (need_release c =? 0); now split. }
  destruct (0 <? fault_cool_rem c).
  { destruct (elapsed 1 now c); now split. }
  destruct (0 <? comm_cool_rem c).
  { destruct (elapsed 1 now c); now split. }
  destruct (negb (Z.land (status_word inp) 64 =? 0)).
  { split; [exact Hi|]. ctx_simpl. discriminate. }
  destruct (Z.eqb_spec (st c) 0) as [E0|_].
  { destruct (Z.land (status_word inp) 111 =? 33); cbv zeta; ctx_simpl;
      (split; [exact Hi|]); [discriminate | lia]. }
  destruct (Z.eqb_spec (st c) 1) as [E1|_].
  { destruct (Z.land (status_word inp) 111 =? 35); cbv zeta; ctx_simpl;
      (split; [exact Hi|]); [discriminate | lia]. }
  destruct (Z.eqb_spec (st c) 2) as [E2|_].
  { cbv zeta. ctx_simpl.
    pose proof (s32_range (u32 (position_actual_value inp))) as Hr.
    destruct (Z.land (status_word inp) 111 =? 39); ctx_simpl;
      (split; [exact Hr|]); intros _; now apply s32_u32_id. }
  destruct (Z.eqb_spec (st c) 3) as [E3|_]; [|now split].
  destruct (elapsed LOOP_PERIOD_MS now c); [|now split].
  rewrite csp_producer_eq. cbv zeta. ctx_simpl.
  pose proof (advance_target_i32 c Hi) as Hi'.
  split; [exact Hi'|]. intros _. now apply s32_u32_id.
Qed.

Lemma run_image_inv g tr :
  forall c out,
    image_inv c out -> image_inv (run_ctx g c out tr) (run_out g c out tr).
Proof.
  unfold run_ctx, run_out.
  induction tr as [|[now inp] tr IH]; intros c out H; simpl; [exact H|].
  pose proof (Run_image_inv g now inp c out H) as H1. cbv zeta in H1.
  destruct (ServoTemplate_Run g now inp c out) as [[c1 out1] ev].
  specialize (IH c1 out1 H1).
  destruct (run g c1 out1 tr) as [[c2 out2] evs]. exact IH.
Qed.

(** A producer tick seen from the control word: bit 4 flips exactly when
    the target changes if the control word in the image carried the edge
    bit before the tick, and exactly when the target stays if it did
    not. *)
Lemma csp_producer_cw_flip now inp c out c' out' ev :
  in_i32 (pos_tgt c) ->
  target_position out = pos_tgt c ->
  csp_producer now inp c out = (c', out', ev) ->
  cw_bit4_flips out out' =
  xorb (target_changed out out') (negb (edge_in_image c out)).
Proof.
  intros Hi Hprev Hrun.
  destruct (csp_producer_edge now inp c out c' out' ev Hi Hprev Hrun)
    as (_ & _ & _ & H4 & Hiff & Hsame).
  unfold cw_bit4_flips, target_changed, edge_in_image, cw_bit4.
  rewrite H4.
  destruct (Z.eqb_spec (target_position out') (target_position out)) as [E|E].
  - rewrite (Hsame E).
    destruct (Z.testbit (edge c) 4), (Z.testbit (control_word out) 4);
      reflexivity.
  - rewrite (proj2 Hiff E).
    destruct (Z.testbit (edge c) 4), (Z.testbit (control_word out) 4);
      reflexivity.
Qed.

(** X21. The new-set-point bit on a producer tick.  Take any execution
    from the initial context (whatever the output image held at start) and
    a producer tick after it.  The output image holds the running target
    before the tick; the tick writes the target and the control word once
    each; the control word is 0x000F ORed with [edge] after the tick; and
    [edge] flips if and only if the target written differs from the one in
    the image before the tick.  On the control word itself, bit 4 flips
    exactly when the target changes if the word in the image carried
    [edge] before the tick, and exactly when the target stays if it did
    not; after the tick the word carries [edge]. *)
Theorem edge_follows_target_on_producer_tick g o0 tr now inp c' out' ev :
  producer_tick g now inp (run_ctx g ctx0 o0 tr) ->
  ServoTemplate_Run g now inp (run_ctx g ctx0 o0 tr) (run_out g ctx0 o0 tr)
    = (c', out', ev) ->
  target_position (run_out g ctx0 o0 tr) = pos_tgt (run_ctx g ctx0 o0 tr) /\
  target_writes ev = [target_position out'] /\
  control_writes ev = [control_word out'] /\
  control_word out' = u16 (Z.lor 0x000F (edge c')) /\
  (Z.testbit (edge c') 4 = negb (Z.testbit (edge (run_ctx g ctx0 o0 tr)) 4)
   <-> target_position out' <> target_position (run_out g ctx0 o0 tr)) /\
  (target_position out' = target_position (run_out g ctx0 o0 tr) ->
   edge c' = edge (run_ctx g ctx0 o0 tr)) /\
  cw_bit4_flips (run_out g ctx0 o0 tr) out' =
  xorb (target_changed (run_out g ctx0 o0 tr) out')
       (negb (edge_in_image (run_ctx g ctx0 o0 tr) (run_out g ctx0 o0 tr))) /\
  edge_in_image c' out' = true.
Proof.
  intros Hp Hrun.
  assert (H0 : image_inv ctx0 o0).
  { split; [unfold in_i32; pow2; simpl; lia | discriminate]. }
  destruct (run_image_inv g tr ctx0 o0 H0) as [Hi Ht].
  assert (Hst : st (run_ctx g ctx0 o0 tr) = 3) by apply Hp.
  specialize (Ht Hst). split; [exact Ht|].
  rewrite (Run_producer g now inp _ _ Hp) in Hrun.
  pose proof (csp_producer_cw_flip now inp _ _ c' out' ev Hi Ht Hrun) as Hf.
  destruct (csp_producer_edge now inp _ _ c' out' ev Hi Ht Hrun)
    as (H1 & H2 & H3 & H4 & H5 & H6).
  repeat apply conj; try assumption.
  - apply H5.
  - apply H5.
  - unfold edge_in_image, cw_bit4. rewrite H4. apply eqb_reflx.
Qed.

Lemma edge_follows_target_on_producer_tick_witness :
  producer_tick g_mapped 9 (sw_only 0x0027)
    (run_ctx g_mapped ctx0 out0 reenabled_moving) /\
  control_writes [WrTarget 5001; WrControl 0x000F] = [0x000F] /\
  cw_bit4_flips (run_out g_mapped ctx0 out0 reenabled_moving)
    (mkOutputs 0x000F 5001) =
  xorb (target_changed (run_out g_mapped ctx0 out0 reenabled_moving)
          (mkOutputs 0x000F 5001))
       (negb (edge_in_image (run_ctx g_mapped ctx0 out0 reenabled_moving)
                (run_out g_mapped ctx0 out0 reenabled_moving))).
Proof.
  assert (Hp : producer_tick g_mapped 9 (sw_only 0x0027)
                 (run_ctx g_mapped ctx0 out0 reenabled_moving)).
  { vm_compute. repeat split; discriminate. }
  destruct (edge_follows_target_on_producer_tick g_mapped out0
              reenabled_moving 9 (sw_only 0x0027)
              (mkCtx 3 9 5001 1 0 299 0 0 0 0 0)
              (mkOutputs 0x000F 5001) [WrTarget 5001; WrControl 0x000F])
    as (_ & _ & H2 & _ & _ & _ & H6 & _).
  - exact Hp.
  - vm_compute. reflexivity.
  - split; [exact Hp|]. split; [exact H2|exact H6].
Defined.

(** C8 (what the code does).  The new-set-point bit is kept in the static
    [edge], which survives a disable, while the aligning stage writes the
    plain Enable Operation word 0x000F.  First execution: the drive is
    enabled at 5000, one set-point is produced (5001, control word 0x001F,
    [edge] = 0x0010), the drive reports switch-on disabled and is enabled
    again at 5000; the next producer tick changes the target from 5000 to
    5001 and writes control word 0x000F over 0x000F, so bit 4 does not
    flip.  Second execution: the same with a dwell pending at
    [LIMIT_POS]; the producer tick after the second enable keeps the target
    at 200000 and writes 0x001F over 0x000F, so bit 4 flips. *)
Theorem setpoint_edge_wrong_after_reenable :
  run g_mapped ctx0 out0 reenabled_moving =
  (mkCtx 3 8 5000 1 0 RAMP_MS 0 0 0 0x0010 0, mkOutputs 0x000F 5000,
   [[WrControl 0x0006; DbgReadyToSwitchOn];
    [WrControl 0x0007; DbgSwitchedOn];
    [WrTarget 5000; WrControl 0x000F; DbgOperationEnabled];
    [WrTarget 5001; WrControl 0x001F];
    [WrControl 0x0006];
    [WrControl 0x0006; DbgReadyToSwitchOn];
    [WrControl 0x0007; DbgSwitchedOn];
    [WrTarget 5000; WrControl 0x000F; DbgOperationEnabled]]) /\
  producer_tick g_mapped 9 (sw_only 0x0027)
    (run_ctx g_mapped ctx0 out0 reenabled_moving) /\
  ServoTemplate_Run g_mapped 9 (sw_only 0x0027)
    (run_ctx g_mapped ctx0 out0 reenabled_moving)
    (run_out g_mapped ctx0 out0 reenabled_moving) =
  (mkCtx 3 9 5001 1 0 (RAMP_MS - 1) 0 0 0 0 0, mkOutputs 0x000F 5001,
   [WrTarget 5001; WrControl 0x000F]) /\
  target_changed (mkOutputs 0x000F 5000) (mkOutputs 0x000F 5001) = true /\
  cw_bit4_flips (mkOutputs 0x000F 5000) (mkOutputs 0x000F 5001) = false /\
  run g_mapped ctx0 out0 reenabled_dwelling =
  (mkCtx 3 9 200000 0 DWELL_MS RAMP_MS 0 0 0 0x0010 0,
   mkOutputs 0x000F 200000,
   [[WrControl 0x0006; DbgReadyToSwitchOn];
    [WrControl 0x0007; DbgSwitchedOn];
    [WrTarget 199999; WrControl 0x000F; DbgOperationEnabled];
    [WrTarget 200000; WrControl 0x001F];
    [WrTarget 200000; WrControl 0x001F];
    [WrControl 0x0006];
    [WrControl 0x0006; DbgReadyToSwitchOn];
    [WrControl 0x0007; DbgSwitchedOn];
    [WrTarget 200000; WrControl 0x000F; DbgOperationEnabled]]) /\
  producer_tick g_mapped 10 (sw_only 0x0027)
    (run_ctx g_mapped ctx0 out0 reenabled_dwelling) /\
  ServoTemplate_Run g_mapped 10 (sw_only 0x0027)
    (run_ctx g_mapped ctx0 out0 reenabled_dwelling)
    (run_out g_mapped ctx0 out0 reenabled_dwelling) =
  (mkCtx 3 10 200000 0 (DWELL_MS - 1) RAMP_MS 0 0 0 0x0010 0,
   mkOutputs 0x001F 200000,
   [WrTarget 200000; WrControl 0x001F]) /\
  target_changed (mkOutputs 0x000F 200000) (mkOutputs 0x001F 200000) = false /\
  cw_bit4_flips (mkOutputs 0x000F 200000) (mkOutputs 0x001F 200000) = true.
Proof.
  repeat apply conj; try (vm_compute; reflexivity);
    vm_compute; repeat split; discriminate.
Qed.

(** ** Clamp invariant *)

Lemma advance_target_within c :
  within_limits (pos_tgt c) -> within_limits (pos_tgt (advance_target c)).
Proof.
  intros H. destruct (Z.ltb_spec 0 (dwell_rem c)) as [Hd|Hd].
  - now rewrite advance_target_dwell.
  - rewrite advance_target_moving by assumption. apply clamp_limits_within.
Qed.

Lemma csp_producer_within now inp c out :
  within_limits (pos_tgt c) ->
  let r := csp_producer now inp c out in
  within_limits (pos_tgt (fst (fst r))) /\
  Forall within_limits (target_writes (snd r)).
Proof.
  intros H. rewrite csp_producer_eq. cbv zeta.
  pose proof (advance_target_within c H) as Ha.
  rewrite (s32_u32_id _ (within_limits_i32 _ Ha)).
  split; [exact Ha|]. cbn [snd app target_writes].
  destruct (fe_monitor_log (fe_warn (advance_target c))
              (s32 (u32 (following_error_actual inp)))) as [_ Ht].
  rewrite Ht. now constructor.
Qed.

(** One call keeps the running target inside the limits and writes only
    targets inside the limits, as long as a call that starts in the
    aligning stage reads an actual position inside the limits. *)
Lemma Run_within g now inp c out :
  within_limits (pos_tgt c) ->
  (st c = 2 -> within_limits (position_actual_value inp)) ->
  let r := ServoTemplate_Run g now inp c out in
  within_limits (pos_tgt (fst (fst r))) /\
  Forall within_limits (target_writes (snd r)).
Proof.
  intros Hc Hal. unfold ServoTemplate_Run.
  destruct (g_in g); [|now split].
  destruct (g_out g); [|now split].
  destruct (status_word inp =? 0); [now split|].
  destruct (negb (Z.land (status_word inp) 8 =? 0)).
  { destruct (need_release c =? 0); now split. }
  destruct (0 <? fault_cool_rem c).
  { destruct (elapsed 1 now c); now split. }
  destruct (0 <? comm_cool_rem c).
  { destruct (elapsed 1 now c); now split. }
  destruct (negb (Z.land (status_word inp) 64 =? 0)); [now split|].
  destruct (st c =? 0).
  { destruct (Z.land (status_word inp) 111 =? 33); now split. }
  destruct (st c =? 1).
  { destruct (Z.land (status_word inp) 111 =? 35); now split. }
  destruct (Z.eqb_spec (st c) 2) as [E2|_].
  { specialize (Hal E2).
    pose proof (within_limits_i32 _ Hal) as Hi.
    cbv zeta. ctx_simpl. rewrite !(s32_u32_id _ Hi).
    destruct (Z.land (status_word inp) 111 =? 39); cbn [fst snd]; ctx_simpl;
      (split; [exact Hal | cbn [app target_writes]; now constructor]). }
  destruct (st c =? 3); [|now split].
  destruct (elapsed LOOP_PERIOD_MS now c); [|now split].
  now apply csp_producer_within.
Qed.

Lemma run_within g tr :
  forall c out,
    within_limits (pos_tgt c) ->
    aligned_within_limits g c out tr ->
    targets_within_limits (run_events g c out tr).
Proof.
  unfold targets_within_limits, run_events.
  induction tr as [|[now inp] tr IH]; intros c out Hc Hal; simpl.
  - constructor.
  - simpl in Hal. destruct Hal as [Hal Hrest].
    destruct (Run_within g now inp c out Hc Hal) as [Hc1 Hw].
    destruct (ServoTemplate_Run g now inp c out) as [[c1 out1] ev].
    specialize (IH c1 out1 Hc1 Hrest).
    destruct (run g c1 out1 tr) as [[c2 out2] evs].
    constructor; assumption.
Qed.

Lemma Run_aligning g now inp c out :
  aligning_tick g inp c ->
  in_i32 (position_actual_value inp) ->
  target_writes (snd (ServoTemplate_Run g now inp c out)) =
  [position_actual_value inp].
Proof.
  intros (Hg & Hsw & Hf & Hd & Hfc & Hcc & Hst) Hi.
  destruct (mapped_inv g Hg) as (a & b & Ha & Hb).
  unfold ServoTemplate_Run. rewrite Ha, Hb, Hf, Hd, Hst.
  apply Z.eqb_neq in Hsw. rewrite Hsw.
  replace (0 <? fault_cool_rem c) with false by (symmetry; apply Z.ltb_ge; lia).
  replace (0 <? comm_cool_rem c) with false by (symmetry; apply Z.ltb_ge; lia).
  cbv zeta. ctx_simpl. change (2 =? 0) with false. change (2 =? 1) with false.
  change (2 =? 2) with true. cbv iota. cbn [negb].
  rewrite !(s32_u32_id _ Hi).
  destruct (Z.land (status_word inp) 111 =? 39); reflexivity.
Qed.

(** C1 (as the code has it).  From the initial context, over any sequence
    of calls, every target the cycle function writes is inside
    [-LIMIT_POS, LIMIT_POS], provided every call that starts in the
    aligning stage reads an actual position inside the limits.  The write
    of the aligning stage is the actual position itself, not clamped. *)
Theorem clamp_invariant_when_aligned_within_limits g :
  (forall tr,
     aligned_within_limits g ctx0 out0 tr ->
     targets_within_limits (run_events g ctx0 out0 tr)) /\
  (forall now inp c out,
     aligning_tick g inp c ->
     in_i32 (position_actual_value inp) ->
     target_writes (snd (ServoTemplate_Run g now inp c out)) =
     [position_actual_value inp]).
Proof.
  split.
  - intros tr Hal. apply run_within; [|exact Hal].
    unfold within_limits, LIMIT_POS. simpl. lia.
  - intros now inp c out. apply Run_aligning.
Qed.

Lemma clamp_invariant_when_aligned_within_limits_witness :
  aligned_within_limits g_mapped ctx0 out0 (enable_then_run 199000 60) /\
  targets_within_limits
    (run_events g_mapped ctx0 out0 (enable_then_run 199000 60)) /\
  target_writes
    (snd (ServoTemplate_Run g_mapped 3 (mkInputs 0x0027 199000 0 0)
            (mkCtx 2 0 0 1 0 0 0 0 0 0 0) (mkOutputs 7 0))) = [199000].
Proof.
  assert (Hal : aligned_within_limits g_mapped ctx0 out0
                  (enable_then_run 199000 60)).
  { vm_compute. repeat split; intros; try discriminate. }
  destruct (clamp_invariant_when_aligned_within_limits g_mapped) as [H1 H2].
  split; [exact Hal|]. split; [exact (H1 _ Hal)|].
  apply H2.
  - unfold aligning_tick. repeat split; simpl; try reflexivity; lia.
  - unfold in_i32; pow2; simpl; lia.
Defined.

(** C1 as stated fails: the aligning stage writes the actual position as
    the target without clamping it.  With the axis standing at 300000
    counts, the third call writes the target 300000, outside the limits. *)
Lemma clamp_invariant_fails_in_aligning :
  run_events g_mapped ctx0 out0
    [(1, sw_only 0x0021); (2, sw_only 0x0023);
     (3, mkInputs 0x0023 300000 0 0)] =
  [[WrControl 0x0006; DbgReadyToSwitchOn];
   [WrControl 0x0007; DbgSwitchedOn];
   [WrTarget 300000; WrControl 0x000F]] /\
  ~ targets_within_limits
      (run_events g_mapped ctx0 out0
         [(1, sw_only 0x0021); (2, sw_only 0x0023);
          (3, mkInputs 0x0023 300000 0 0)]).
Proof.
  assert (E : run_events g_mapped ctx0 out0
                [(1, sw_only 0x0021); (2, sw_only 0x0023);
                 (3, mkInputs 0x0023 300000 0 0)] =
              [[WrControl 0x0006; DbgReadyToSwitchOn];
               [WrControl 0x0007; DbgSwitchedOn];
               [WrTarget 300000; WrControl 0x000F]])
    by (vm_compute; reflexivity).
  split; [exact E|]. rewrite E. unfold targets_within_limits. intros H.
  inversion H as [|? ? _ H1]; subst. inversion H1 as [|? ? _ H2]; subst.
  inversion H2 as [|? ? H3 _]; subst. simpl in H3.
  inversion H3 as [|? ? H4 _]; subst.
  unfold within_limits, LIMIT_POS in H4. lia.
Qed.

(** ** Fault-reset pulse *)

(** What the code does guarantee: when the fault bit is read on two calls
    in a row and no pulse is pending at the first, the control words
    written are 0x0080 then 0x0006 and the pulse flag is clear again. *)
Lemma fault_pulse_when_fault_persists g n1 n2 i1 i2 c out :
  mapped g ->
  Z.land (status_word i1) 0x0008 <> 0 ->
  Z.land (status_word i2) 0x0008 <> 0 ->
  need_release c = 0 ->
  run g c out [(n1, i1); (n2, i2)] =
  (c, mkOutputs 0x0006 (target_position out),
   [[WrControl 0x0080]; [WrControl 0x0006]]).
Proof.
  intros Hg H1 H2 Hn.
  destruct (mapped_inv g Hg) as (a & b & Ha & Hb).
  assert (Hz : forall i, Z.land (status_word i) 8 <> 0 ->
                         (status_word i =? 0) = false).
  { intros i Hi. apply Z.eqb_neq. intros E. rewrite E in Hi. now apply Hi. }
  unfold run, ServoTemplate_Run. rewrite Ha, Hb, (Hz i1 H1), (Hz i2 H2).
  apply Z.eqb_neq in H1, H2. rewrite H1, H2, Hn. simpl.
  destruct c; simpl in *; subst. reflexivity.
Qed.

(** C4 (what the code does).  The release phase depends on the fault bit
    still being set on the next call.  First execution: the drive is ready
    to switch on, reports a fault on one call and is switched on at the
    next; the words written from the fault on are 0x0080 then 0x0007 and
    the pulse stays pending.  Second execution: a fault is reset within one
    call (the drive answers with switch-on disabled), the drive is enabled
    again and a second fault arrives; the two calls starting at that fault
    write 0x0006 then 0x0080. *)
Theorem fault_pulse_release_skipped :
  run g_mapped ctx0 out0
    [(1, sw_only 0x0021); (2, sw_only 0x0008); (3, sw_only 0x0023)] =
  (mkCtx 2 0 0 1 0 0 0 0 0 0 1, mkOutputs 0x0007 0,
   [[WrControl 0x0006; DbgReadyToSwitchOn];
    [WrControl 0x0080];
    [WrControl 0x0007; DbgSwitchedOn]]) /\
  run g_mapped ctx0 out0
    [(1, sw_only 0x0008); (2, sw_only 0x0040); (3, sw_only 0x0021);
     (4, sw_only 0x0023); (5, sw_only 0x0008); (6, sw_only 0x0008)] =
  (mkCtx 2 0 0 1 0 0 0 0 0 0 1, mkOutputs 0x0080 0,
   [[WrControl 0x0080];
    [WrControl 0x0006];
    [WrControl 0x0006; DbgReadyToSwitchOn];
    [WrControl 0x0007; DbgSwitchedOn];
    [WrControl 0x0006];
    [WrControl 0x0080]]).
Proof. split; vm_compute; reflexivity. Qed.

(** ** Post-fault cooldown *)

(** No branch of the cycle function arms the post-fault cooldown. *)
Lemma Run_fault_cool_rem g now inp c out :
  fault_cool_rem c = 0 ->
  fault_cool_rem (fst (fst (ServoTemplate_Run g now inp c out))) = 0.
Proof.
  intros H. unfold ServoTemplate_Run. rewrite H. change (0 <? 0) with false.
  cbv iota.
  destruct (advance_target_frame c) as (_ & _ & _ & Hf & _).
  rewrite csp_producer_eq. cbv zeta. ctx_simpl.
  repeat match goal with
         | |- context [match ?b with _ => _ end] => destruct b
         end; ctx_simpl; congruence.
Qed.

Lemma run_fault_cool_rem g tr :
  forall c out,
    fault_cool_rem c = 0 -> fault_cool_rem (run_ctx g c out tr) = 0.
Proof.
  unfold run_ctx.
  induction tr as [|[now inp] tr IH]; intros c out H; simpl; [exact H|].
  pose proof (Run_fault_cool_rem g now inp c out H) as H1.
  destruct (ServoTemplate_Run g now inp c out) as [[c1 out1] ev].
  specialize (IH c1 out1 H1).
  destruct (run g c1 out1 tr) as [[c2 out2] evs]. exact IH.
Qed.

(** C3 (what the code does).  The post-fault cooldown counter is zero in
    every context reachable from the initial one, so the cooldown branch
    never runs.  First execution: fault on two calls, then the drive
    reports switch-on disabled, ready to switch on, switched on; the stage
    advances on the second call after the fault cleared and the control
    word is 0x0007 on the third.  Second execution: the drive is enabled
    and producing, a fault is read on two calls, and on the first call
    after it cleared the producer runs again and writes control word
    0x001F with a new target. *)
Theorem fault_cooldown_never_armed :
  (forall g tr, fault_cool_rem (run_ctx g ctx0 out0 tr) = 0) /\
  run g_mapped ctx0 out0
    [(1, sw_only 0x0008); (2, sw_only 0x0008); (3, sw_only 0x0040);
     (4, sw_only 0x0021); (5, sw_only 0x0023)] =
  (mkCtx 2 0 0 1 0 0 0 0 0 0 0, mkOutputs 0x0007 0,
   [[WrControl 0x0080];
    [WrControl 0x0006];
    [WrControl 0x0006];
    [WrControl 0x0006; DbgReadyToSwitchOn];
    [WrControl 0x0007; DbgSwitchedOn]]) /\
  run g_mapped (run_ctx g_mapped ctx0 out0 (enable_then_run 1000 2))
      (run_out g_mapped ctx0 out0 (enable_then_run 1000 2))
    [(6, sw_only 0x0008); (7, sw_only 0x0008); (8, sw_only 0x0027)] =
  (mkCtx 3 8 1006 1 0 (RAMP_MS - 3) 0 0 0 0x0010 0, mkOutputs 0x001F 1006,
   [[WrControl 0x0080];
    [WrControl 0x0006];
    [WrTarget 1006; WrControl 0x001F]]).
Proof.
  split; [|split].
  - intros g tr. now apply run_fault_cool_rem.
  - vm_compute. reflexivity.
  - vm_compute. reflexivity.
Qed.

(** ** Dwell and reversal *)

(** A dwell counts down without moving the target. *)
Lemma dwell_holds_target c :
  0 < dwell_rem c ->
  pos_tgt (advance_target c) = pos_tgt c /\
  dwell_rem (advance_target c) = dwell_rem c - 1.
Proof.
  intros H. unfold advance_target.
  replace (0 <? dwell_rem c) with true by (symmetry; apply Z.ltb_lt; lia).
  ctx_simpl. destruct (dwell_rem c - 1 =? 0); ctx_simpl; auto.
Qed.

(** A dwell that started at a clamp (direction 0) always ends with
    direction -1, whichever limit was hit. *)
Lemma dwell_end_direction c :
  dwell_rem c = 1 -> dir c = 0 ->
  dir (advance_target c) = -1 /\ ramp_rem (advance_target c) = RAMP_MS /\
  dwell_rem (advance_target c) = 0.
Proof.
  intros Hd Hdir. unfold advance_target. rewrite Hd.
  change (0 <? 1) with true. cbv iota zeta. ctx_simpl.
  change (1 - 1 =? 0) with true. cbv iota. ctx_simpl.
  rewrite Hdir. auto.
Qed.

(** The lower limit is absorbing: the producer step leads from
    [stuck_low] to [stuck_low]. *)
Lemma lower_limit_absorbing c :
  stuck_low c -> stuck_low (advance_target c).
Proof.
  unfold stuck_low. intros [Hp [[Hd Hdir]|(Hd & Hdir & Hr)]].
  - destruct (dwell_holds_target c Hd) as [Hp' Hd'].
    split; [congruence|].
    destruct (Z.eq_dec (dwell_rem c) 1) as [E|E].
    + right. destruct (dwell_end_direction c E Hdir) as (? & ? & ?). auto.
    + left. split; [lia|]. unfold advance_target.
      replace (0 <? dwell_rem c) with true by (symmetry; apply Z.ltb_lt; lia).
      ctx_simpl.
      replace (dwell_rem c - 1 =? 0) with false
        by (symmetry; apply Z.eqb_neq; lia).
      exact Hdir.
  - rewrite advance_target_moving by lia.
    rewrite Hp, Hdir, Hr. vm_compute. split; [reflexivity|].
    left. split; reflexivity.
Qed.

(** C2 (what the code does).  With the axis enabled at 199000 counts and
    one producer tick per millisecond: the target is clamped at
    [+LIMIT_POS] on tick 45, held there for the [DWELL_MS] ticks of the
    dwell, and moves backwards from tick 546 on.  It is clamped at
    [-LIMIT_POS] on tick 2028 and held for the [DWELL_MS] ticks of the
    dwell; the dwell ends with direction -1 again, so the next tick steps
    below the limit and is clamped back, starting a new dwell.  Every
    target written from tick 2028 on, over the next 2000 ticks, is
    [-LIMIT_POS]: the motion never resumes towards the upper limit. *)
Theorem dwell_at_lower_limit_never_reverses :
  fst (run g_mapped ctx0 out0 (enable_then_run 199000 45)) =
    (mkCtx 3 48 LIMIT_POS 0 DWELL_MS 255 0 0 0 0x0010 0,
     mkOutputs 0x001F LIMIT_POS) /\
  fst (run g_mapped (mkCtx 3 48 LIMIT_POS 0 DWELL_MS 255 0 0 0 0x0010 0)
         (mkOutputs 0x001F LIMIT_POS) (ticks_from 500 49 (sw_only 0x0027))) =
    (mkCtx 3 548 LIMIT_POS (-1) 0 RAMP_MS 0 0 0 0x0010 0,
     mkOutputs 0x001F LIMIT_POS) /\
  fst (run g_mapped (mkCtx 3 548 LIMIT_POS (-1) 0 RAMP_MS 0 0 0 0x0010 0)
         (mkOutputs 0x001F LIMIT_POS) (ticks_from 1 549 (sw_only 0x0027))) =
    (mkCtx 3 549 (LIMIT_POS - 1) (-1) 0 (RAMP_MS - 1) 0 0 0 0 0,
     mkOutputs 0x000F (LIMIT_POS - 1)) /\
  fst (run g_mapped ctx0 out0 (enable_then_run 199000 2028)) =
    (mkCtx 3 2031 (- LIMIT_POS) 0 DWELL_MS 0 0 0 0 0 0,
     mkOutputs 0x000F (- LIMIT_POS)) /\
  fst (run g_mapped (mkCtx 3 2031 (- LIMIT_POS) 0 DWELL_MS 0 0 0 0 0 0)
         (mkOutputs 0x000F (- LIMIT_POS))
         (ticks_from 500 2032 (sw_only 0x0027))) =
    (mkCtx 3 2531 (- LIMIT_POS) (-1) 0 RAMP_MS 0 0 0 0 0,
     mkOutputs 0x000F (- LIMIT_POS)) /\
  fst (run g_mapped (mkCtx 3 2531 (- LIMIT_POS) (-1) 0 RAMP_MS 0 0 0 0 0)
         (mkOutputs 0x000F (- LIMIT_POS))
         (ticks_from 1 2532 (sw_only 0x0027))) =
    (mkCtx 3 2532 (- LIMIT_POS) 0 DWELL_MS (RAMP_MS - 1) 0 0 0 0 0,
     mkOutputs 0x000F (- LIMIT_POS)) /\
  forallb (fun ev => match target_writes ev with
                     | [v] => v =? - LIMIT_POS
                     | _ => false
                     end)
    (run_events g_mapped (mkCtx 3 2031 (- LIMIT_POS) 0 DWELL_MS 0 0 0 0 0 0)
       (mkOutputs 0x000F (- LIMIT_POS))
       (ticks_from 2000 2032 (sw_only 0x0027)))
  = true.
Proof. repeat apply conj; vm_compute; reflexivity. Qed.

(** * The byte image *)

Lemma obj_bytes_length e n v : length (obj_bytes e n v) = n.
Proof.
  destruct e; simpl; [|rewrite length_rev]; apply length_le_split.
Qed.

Lemma obj_value_bytes e n v :
  obj_value e (obj_bytes e n v) = v mod 2 ^ (Z.of_nat n * 8).
Proof.
  destruct e; simpl; [|rewrite rev_involutive]; apply le_combine_split.
Qed.

Lemma obj_bytes_value e bs : obj_bytes e (length bs) (obj_value e bs) = bs.
Proof.
  destruct e; simpl.
  - apply split_le_combine.
  - rewrite <- (length_rev bs), split_le_combine. apply rev_involutive.
Qed.

Lemma load_length n p (m : Image) :
  (p + n <= length m)%nat -> length (load n p m) = n.
Proof.
  intros H. unfold load. rewrite length_firstn, length_skipn. lia.
Qed.

Lemma store_length p bs (m : Image) :
  (p + length bs <= length m)%nat -> length (store p bs m) = length m.
Proof.
  intros H. unfold store.
  rewrite !length_app, length_firstn, length_skipn. lia.
Qed.

Lemma load_store_same p bs (m : Image) :
  (p + length bs <= length m)%nat -> load (length bs) p (store p bs m) = bs.
Proof.
  intros H. unfold load, store.
  rewrite skipn_app, length_firstn.
  replace (Nat.min p (length m)) with p by lia.
  rewrite skipn_firstn_comm, Nat.sub_diag. simpl.
  rewrite firstn_app, Nat.sub_diag, firstn_all. simpl. apply app_nil_r.
Qed.

Lemma store_load p n (m : Image) :
  (p + n <= length m)%nat -> store p (load n p m) m = m.
Proof.
  intros H. unfold store. rewrite load_length by assumption. unfold load.
  replace (p + n)%nat with (n + p)%nat by lia.
  rewrite <- skipn_skipn.
  rewrite (firstn_skipn n (skipn p m)).
  apply firstn_skipn.
Qed.

Lemma nth_error_store_other p bs (m : Image) i :
  (p + length bs <= length m)%nat ->
  (i < p \/ p + length bs <= i)%nat ->
  nth_error (store p bs m) i = nth_error m i.
Proof.
  intros H Hi. unfold store. destruct Hi as [Hi|Hi].
  - rewrite nth_error_app1 by (rewrite length_firstn; lia).
    rewrite nth_error_firstn.
    destruct (Nat.ltb_spec i p); [reflexivity|lia].
  - rewrite nth_error_app2 by (rewrite length_firstn; lia).
    rewrite length_firstn.
    replace (Nat.min p (length m)) with p by lia.
    rewrite nth_error_app2 by lia.
    rewrite nth_error_skipn. f_equal. lia.
Qed.

Lemma load_store_other n q p bs (m : Image) :
  (p + length bs <= length m)%nat ->
  (q + n <= p \/ p + length bs <= q)%nat ->
  load n q (store p bs m) = load n q m.
Proof.
  intros H Hq. unfold load.
  apply nth_error_ext. intros i.
  rewrite !nth_error_firstn.
  destruct (Nat.ltb_spec i n) as [Hi|Hi]; [|reflexivity].
  rewrite !nth_error_skipn.
  apply nth_error_store_other; [assumption|lia].
Qed.

Lemma nth_error_store_in p bs (m : Image) i :
  (p <= length m)%nat -> (i < length bs)%nat ->
  nth_error (store p bs m) (p + i) = nth_error bs i.
Proof.
  intros H Hi. unfold store.
  rewrite nth_error_app2 by (rewrite length_firstn; lia).
  rewrite length_firstn.
  replace (p + i - Nat.min p (length m))%nat with i by lia.
  now apply nth_error_app1.
Qed.

Lemma s32_inj_u32 x y :
  0 <= x < 2 ^ 32 -> 0 <= y < 2 ^ 32 -> s32 x = s32 y -> x = y.
Proof.
  unfold s32; pow2. intros Hx Hy H.
  assert (E : (x + 2147483648) mod 4294967296 =
              (y + 2147483648) mod 4294967296) by lia.
  destruct (Z_lt_le_dec x 2147483648), (Z_lt_le_dec y 2147483648).
  - rewrite !Z.mod_small in E by lia. lia.
  - rewrite (Z.mod_small (x + _)) in E by lia.
    replace (y + 2147483648) with (y - 2147483648 + 1 * 4294967296) in E
      by lia.
    rewrite Z.mod_add, Z.mod_small in E by lia. lia.
  - rewrite (Z.mod_small (y + _)) in E by lia.
    replace (x + 2147483648) with (x - 2147483648 + 1 * 4294967296) in E
      by lia.
    rewrite Z.mod_add, Z.mod_small in E by lia. lia.
  - replace (x + 2147483648) with (x - 2147483648 + 1 * 4294967296) in E
      by lia.
    replace (y + 2147483648) with (y - 2147483648 + 1 * 4294967296) in E
      by lia.
    rewrite !Z.mod_add, !Z.mod_small in E by lia. lia.
Qed.

Lemma obj_value_range e bs :
  0 <= obj_value e bs < 2 ^ (8 * Z.of_nat (length bs)).
Proof.
  destruct e; simpl; [|rewrite <- (length_rev bs)]; apply le_combine_bound.
Qed.

Lemma obj_value_inj e bs1 bs2 :
  length bs1 = length bs2 -> obj_value e bs1 = obj_value e bs2 -> bs1 = bs2.
Proof.
  intros Hl H. destruct e; simpl in H.
  - now apply le_combine_inj.
  - apply le_combine_inj in H; [|now rewrite !length_rev].
    apply (f_equal (@rev byte)) in H. now rewrite !rev_involutive in H.
Qed.

(** X1. Round trip and frame of the 16-bit accessors, on either host. *)
Theorem le_u16_round_trip e (m : Image) p v :
  (p + 2 <= length m)%nat ->
  le_get_u16 e (le_set_u16 e m p v) p = v mod 2 ^ 16 /\
  length (le_set_u16 e m p v) = length m /\
  (forall i, (i < p \/ p + 2 <= i)%nat ->
     nth_error (le_set_u16 e m p v) i = nth_error m i) /\
  le_set_u16 e m p (le_get_u16 e m p) = m.
Proof.
  intros H. unfold le_get_u16, le_set_u16.
  pose proof (obj_bytes_length e 2 v) as Hl.
  repeat apply conj.
  - rewrite <- Hl at 1. rewrite load_store_same by (rewrite Hl; lia).
    apply obj_value_bytes.
  - apply store_length. rewrite Hl. lia.
  - intros i Hi. apply nth_error_store_other; rewrite Hl; lia.
  - rewrite <- (load_length 2 p m) at 1 by lia.
    rewrite obj_bytes_value. now apply store_load.
Qed.

Lemma le_u16_round_trip_witness :
  (2 + 2 <= length [Byte.x01; Byte.x02; Byte.x03; Byte.x04;
                    Byte.x05; Byte.x06])%nat /\
  le_get_u16 HostBig
    (le_set_u16 HostBig
       [Byte.x01; Byte.x02; Byte.x03; Byte.x04; Byte.x05; Byte.x06]
       2 0x12345) 2 = 0x2345.
Proof.
  assert (Hb : (2 + 2 <= length [Byte.x01; Byte.x02; Byte.x03; Byte.x04;
                                 Byte.x05; Byte.x06])%nat) by (simpl; lia).
  split; [exact Hb|].
  exact (proj1 (le_u16_round_trip HostBig _ 2 0x12345 Hb)).
Defined.


(** X2. Round trip and frame of the 32-bit accessors; a signed value
    written through [EC_SETUINT32] is read back by the [(int32_t)] cast. *)
Theorem le_u32_round_trip e (m : Image) p v :
  (p + 4 <= length m)%nat ->
  le_get_u32 e (le_set_u32 e m p v) p = v mod 2 ^ 32 /\
  (in_i32 v -> s32 (EC_GETUINT32 e (EC_SETUINT32 e m p v) p) = v) /\
  length (le_set_u32 e m p v) = length m /\
  (forall i, (i < p \/ p + 4 <= i)%nat ->
     nth_error (le_set_u32 e m p v) i = nth_error m i) /\
  le_set_u32 e m p (le_get_u32 e m p) = m.
Proof.
  intros H. unfold EC_GETUINT32, EC_SETUINT32, le_get_u32, le_set_u32.
  assert (Hl : forall w, length (obj_bytes e 4 w) = 4%nat)
    by (intros w; apply obj_bytes_length).
  assert (Hrt : forall w, obj_value e (load 4 p (store p (obj_bytes e 4 w) m))
                          = w mod 2 ^ 32).
  { intros w. rewrite <- (Hl w) at 1.
    rewrite load_store_same by (rewrite Hl; lia). apply obj_value_bytes. }
  repeat apply conj.
  - apply Hrt.
  - intros Hv. rewrite Hrt. fold (u32 (u32 v)).
    rewrite s32_u32. now apply s32_u32_id.
  - apply store_length. rewrite Hl. lia.
  - intros i Hi. apply nth_error_store_other; rewrite Hl; lia.
  - rewrite <- (load_length 4 p m) at 1 by lia.
    rewrite obj_bytes_value. now apply store_load.
Qed.

Lemma le_u32_round_trip_witness :
  (2 + 4 <= length [Byte.x01; Byte.x02; Byte.x03; Byte.x04;
                    Byte.x05; Byte.x06])%nat /\
  in_i32 (-200000) /\
  s32 (EC_GETUINT32 HostLittle
         (EC_SETUINT32 HostLittle
            [Byte.x01; Byte.x02; Byte.x03; Byte.x04; Byte.x05; Byte.x06]
            2 (-200000)) 2) = -200000.
Proof.
  assert (Hb : (2 + 4 <= length [Byte.x01; Byte.x02; Byte.x03; Byte.x04;
                                 Byte.x05; Byte.x06])%nat) by (simpl; lia).
  assert (Hi : in_i32 (-200000)) by (unfold in_i32; pow2; lia).
  destruct (le_u32_round_trip HostLittle
              [Byte.x01; Byte.x02; Byte.x03; Byte.x04; Byte.x05; Byte.x06]
              2 (-200000) Hb)
    as (_ & H & _).
  split; [exact Hb|]. split; [exact Hi|]. exact (H Hi).
Defined.


Lemma read_outputs_eq e (m : Image) :
  read_outputs e m =
  mkOutputs (obj_value e (load 2 0 m)) (s32 (obj_value e (load 4 2 m))).
Proof. reflexivity. Qed.

(** X3. The record model of the output image is what the byte image
    holds: on a 6-byte image a control-word write through [EC_SETWORD]
    and a target write through [EC_SETUINT32], at the offsets of the
    packed struct, are [set_control_word] and [set_target_position] on the
    struct value read back; neither write touches the other field nor
    changes the size of the image. *)
Theorem output_image_refines e (m : Image) v :
  length m = sizeof_Drive_Outputs ->
  read_outputs e (EC_SETWORD e m off_control_word v) =
    set_control_word v (read_outputs e m) /\
  read_outputs e (EC_SETUINT32 e m off_target_position v) =
    set_target_position v (read_outputs e m) /\
  length (EC_SETWORD e m off_control_word v) = sizeof_Drive_Outputs /\
  length (EC_SETUINT32 e m off_target_position v) = sizeof_Drive_Outputs.
Proof.
  unfold sizeof_Drive_Outputs, off_control_word, off_target_position.
  intros Hm. unfold EC_SETWORD, EC_SETUINT32, le_set_u16, le_set_u32.
  pose proof (obj_bytes_length e 2 (u16 v)) as H2.
  pose proof (obj_bytes_length e 4 (u32 v)) as H4.
  unfold set_control_word, set_target_position.
  rewrite !read_outputs_eq. cbn [control_word target_position].
  repeat apply conj.
  - f_equal.
    + rewrite <- H2 at 1. rewrite load_store_same by (rewrite H2; lia).
      rewrite obj_value_bytes. unfold u16. change (Z.of_nat 2 * 8) with 16.
      apply Z.mod_mod. discriminate.
    + rewrite load_store_other by (rewrite H2; lia). reflexivity.
  - f_equal.
    + rewrite load_store_other by (rewrite H4; lia). reflexivity.
    + rewrite <- H4 at 1. rewrite load_store_same by (rewrite H4; lia).
      rewrite obj_value_bytes. change (Z.of_nat 4 * 8) with 32.
      fold (u32 (u32 v)). now rewrite s32_u32.
  - rewrite store_length; rewrite ?H2; lia.
  - rewrite store_length; rewrite ?H4; lia.
Qed.

Lemma output_image_refines_witness :
  length [Byte.x01; Byte.x02; Byte.x03; Byte.x04; Byte.x05; Byte.x06]
  = sizeof_Drive_Outputs /\
  read_outputs HostLittle
    (EC_SETWORD HostLittle
       [Byte.x01; Byte.x02; Byte.x03; Byte.x04; Byte.x05; Byte.x06]
       off_control_word 0x001F) =
  set_control_word 0x001F
    (read_outputs HostLittle
       [Byte.x01; Byte.x02; Byte.x03; Byte.x04; Byte.x05; Byte.x06]).
Proof.
  split; [reflexivity|].
  exact (proj1 (output_image_refines HostLittle
                  [Byte.x01; Byte.x02; Byte.x03; Byte.x04; Byte.x05; Byte.x06]
                  0x001F eq_refl)).
Defined.


(** X4. The four input fields cover every byte of the 12-byte input
    image (the struct is packed): two 12-byte images that read as the same
    struct value are the same image. *)
Theorem input_image_determined_by_fields e (m1 m2 : Image) :
  length m1 = sizeof_Drive_Inputs ->
  length m2 = sizeof_Drive_Inputs ->
  read_inputs e m1 = read_inputs e m2 ->
  m1 = m2.
Proof.
  unfold sizeof_Drive_Inputs. intros H1 H2 H.
  unfold read_inputs, EC_GETWORD, EC_GETUINT32, le_get_u16, le_get_u32,
    off_status_word, off_position_actual_value, off_following_error_actual,
    off_error_code in H.
  injection H as Ha Hb Hc Hd.
  assert (R : forall m : Image, length m = 12%nat ->
            m = load 2 0 m ++ load 4 2 m ++ load 4 6 m ++ load 2 10 m).
  { intros m Hm.
    do 12 (destruct m as [|? m]; [discriminate Hm|]).
    destruct m; [reflexivity|discriminate Hm]. }
  assert (L : forall n p (m : Image), length m = 12%nat ->
            (p + n <= 12)%nat -> length (load n p m) = n).
  { intros n p m Hm Hp. apply load_length. lia. }
  assert (U : forall (a b : list byte), length a = 4%nat -> length b = 4%nat ->
            s32 (obj_value e a) = s32 (obj_value e b) -> a = b).
  { intros a b Hla Hlb Hs. apply (obj_value_inj e); [congruence|].
    pose proof (obj_value_range e a) as Ra.
    pose proof (obj_value_range e b) as Rb.
    rewrite Hla in Ra. rewrite Hlb in Rb.
    change (8 * Z.of_nat 4) with 32 in *. now apply s32_inj_u32. }
  apply obj_value_inj in Ha; [|rewrite !L by (assumption || lia); reflexivity].
  apply obj_value_inj in Hd; [|rewrite !L by (assumption || lia); reflexivity].
  apply U in Hb; try (apply L; assumption || lia).
  apply U in Hc; try (apply L; assumption || lia).
  rewrite (R m1 H1), (R m2 H2). congruence.
Qed.

Lemma input_image_determined_by_fields_witness :
  read_inputs HostLittle
     [Byte.x27; Byte.x02; Byte.xe8; Byte.x03; Byte.x00; Byte.x00;
      Byte.x0c; Byte.x00; Byte.x00; Byte.x00; Byte.x00; Byte.x00] =
  mkInputs 0x0227 1000 12 0 /\
  [Byte.x27; Byte.x02; Byte.xe8; Byte.x03; Byte.x00; Byte.x00;
      Byte.x0c; Byte.x00; Byte.x00; Byte.x00; Byte.x00; Byte.x00] =
  obj_bytes HostLittle 2 0x0227 ++ obj_bytes HostLittle 4 1000
  ++ obj_bytes HostLittle 4 12 ++ obj_bytes HostLittle 2 0.
Proof.
  split; [vm_compute; reflexivity|].
  apply (input_image_determined_by_fields HostLittle); vm_compute; reflexivity.
Defined.


(** X5. Byte order in the image.  On a little-endian host the low byte
    of a 16-bit value is stored first, as the EtherCAT process image
    expects; on a big-endian host [memcpy] stores the high byte first, so
    the byte order of the image follows the host. *)
Theorem le_set_u16_byte_order (m : Image) p v :
  (p + 2 <= length m)%nat ->
  nth_error (le_set_u16 HostLittle m p v) p = Some (byte.of_Z v) /\
  nth_error (le_set_u16 HostLittle m p v) (p + 1) =
    Some (byte.of_Z (Z.shiftr v 8)) /\
  nth_error (le_set_u16 HostBig m p v) p = Some (byte.of_Z (Z.shiftr v 8)) /\
  nth_error (le_set_u16 HostBig m p v) (p + 1) = Some (byte.of_Z v).
Proof.
  intros H. unfold le_set_u16.
  repeat apply conj.
  - rewrite <- (Nat.add_0_r p) at 2.
    rewrite nth_error_store_in by (simpl; lia). reflexivity.
  - rewrite nth_error_store_in by (simpl; lia). reflexivity.
  - rewrite <- (Nat.add_0_r p) at 2.
    rewrite nth_error_store_in by (simpl; lia). reflexivity.
  - rewrite nth_error_store_in by (simpl; lia). reflexivity.
Qed.

Lemma le_set_u16_byte_order_witness :
  (0 + 2 <= length [Byte.x01; Byte.x02; Byte.x03; Byte.x04;
                    Byte.x05; Byte.x06])%nat /\
  nth_error
    (le_set_u16 HostLittle
       [Byte.x01; Byte.x02; Byte.x03; Byte.x04; Byte.x05; Byte.x06]
       0 0x001F) 0 =
    Some (byte.of_Z 0x001F).
Proof.
  assert (Hb : (0 + 2 <= length [Byte.x01; Byte.x02; Byte.x03; Byte.x04;
                                 Byte.x05; Byte.x06])%nat) by (simpl; lia).
  split; [exact Hb|].
  exact (proj1 (le_set_u16_byte_order _ 0 0x001F Hb)).
Defined.


(** * Clock helpers *)

Lemma now_ms_of_eq s n :
  timespec_ok s n -> now_ms_of s n = s * 1000 + n / 1000000.
Proof.
  unfold timespec_ok, now_ms_of. change (2 ^ 52) with 4503599627370496.
  intros [Hs Hn]. rewrite Z.quot_div_nonneg by lia.
  assert (0 <= n / 1000000 < 1000)
    by (split; [apply Z.div_pos; lia | apply Z.div_lt_upper_bound; lia]).
  rewrite (s64_id (s * 1000)) by (pow2; lia).
  apply s64_id. pow2. lia.
Qed.

(** X6. [now_ms] follows the monotonic clock: a later [timespec] never
    gives a smaller millisecond value, one real millisecond later the
    value is at least one higher (so the loop-period test of the cycle
    function passes), and less than one millisecond later it is at most
    one higher. *)
Theorem now_ms_monotone s1 n1 s2 n2 :
  timespec_ok s1 n1 -> timespec_ok s2 n2 ->
  timespec_ns s1 n1 <= timespec_ns s2 n2 ->
  now_ms_of s1 n1 <= now_ms_of s2 n2 /\
  (timespec_ns s1 n1 + 1000000 <= timespec_ns s2 n2 ->
     LOOP_PERIOD_MS <= s64 (now_ms_of s2 n2 - now_ms_of s1 n1)) /\
  (timespec_ns s2 n2 < timespec_ns s1 n1 + 1000000 ->
     now_ms_of s2 n2 <= now_ms_of s1 n1 + 1).
Proof.
  intros H1 H2 Hle.
  rewrite (now_ms_of_eq s1 n1 H1), (now_ms_of_eq s2 n2 H2).
  unfold timespec_ok, timespec_ns, LOOP_PERIOD_MS in *.
  change (2 ^ 52) with 4503599627370496 in *.
  destruct H1 as [Hs1 Hn1], H2 as [Hs2 Hn2].
  pose proof (Z.div_mod n1 1000000 ltac:(lia)) as D1.
  pose proof (Z.div_mod n2 1000000 ltac:(lia)) as D2.
  pose proof (Z.mod_pos_bound n1 1000000 ltac:(lia)) as M1.
  pose proof (Z.mod_pos_bound n2 1000000 ltac:(lia)) as M2.
  assert (0 <= n1 / 1000000 < 1000)
    by (split; [apply Z.div_pos; lia | apply Z.div_lt_upper_bound; lia]).
  assert (0 <= n2 / 1000000 < 1000)
    by (split; [apply Z.div_pos; lia | apply Z.div_lt_upper_bound; lia]).
  repeat apply conj.
  - lia.
  - intros Hms. rewrite s64_id by (pow2; lia). lia.
  - intros Hlt. lia.
Qed.

Lemma now_ms_monotone_witness :
  timespec_ok 10 999999999 /\ timespec_ok 11 1000000 /\
  timespec_ns 10 999999999 <= timespec_ns 11 1000000 /\
  now_ms_of 10 999999999 <= now_ms_of 11 1000000.
Proof.
  assert (H1 : timespec_ok 10 999999999)
    by (unfold timespec_ok; change (2 ^ 52) with 4503599627370496; lia).
  assert (H2 : timespec_ok 11 1000000)
    by (unfold timespec_ok; change (2 ^ 52) with 4503599627370496; lia).
  assert (H3 : timespec_ns 10 999999999 <= timespec_ns 11 1000000)
    by (unfold timespec_ns; lia).
  split; [exact H1|]. split; [exact H2|]. split; [exact H3|].
  exact (proj1 (now_ms_monotone 10 999999999 11 1000000 H1 H2 H3)).
Defined.


(** X7. [sleep_ms] builds a valid request: the nanosecond field is a
    whole number of milliseconds below one second, and seconds and
    nanoseconds together are exactly the [ms] asked for; read back as
    [now_ms] reads a [timespec], the request gives [ms]. *)
Theorem sleep_req_exact ms :
  0 <= ms < 2 ^ 32 ->
  0 <= fst (sleep_req ms) /\
  0 <= snd (sleep_req ms) < 1000000000 /\
  snd (sleep_req ms) mod 1000000 = 0 /\
  fst (sleep_req ms) * 1000 + snd (sleep_req ms) / 1000000 = ms /\
  now_ms_of (fst (sleep_req ms)) (snd (sleep_req ms)) = ms.
Proof.
  intros Hms. unfold sleep_req, u32. rewrite Z.mod_small by assumption.
  cbn [fst snd]. pow2.
  pose proof (Z.div_mod ms 1000 ltac:(lia)) as D.
  pose proof (Z.mod_pos_bound ms 1000 ltac:(lia)) as M.
  assert (Hs : 0 <= ms / 1000 < 4294968)
    by (split; [apply Z.div_pos; lia | apply Z.div_lt_upper_bound; lia]).
  assert (Hq : ms mod 1000 * 1000000 / 1000000 = ms mod 1000)
    by (apply Z.div_mul; lia).
  split; [lia|]. split; [lia|]. split; [apply Z.mod_mul; lia|].
  split; [rewrite Hq; lia|].
  rewrite now_ms_of_eq.
  - rewrite Hq. lia.
  - unfold timespec_ok. change (2 ^ 52) with 4503599627370496. lia.
Qed.

Lemma sleep_req_exact_witness :
  0 <= 1500 < 2 ^ 32 /\
  now_ms_of (fst (sleep_req 1500)) (snd (sleep_req 1500)) = 1500.
Proof.
  assert (H : 0 <= 1500 < 2 ^ 32) by (pow2; lia).
  split; [exact H|].
  exact (proj2 (proj2 (proj2 (proj2 (sleep_req_exact 1500 H))))).
Defined.


(** * Reachable contexts *)

Lemma clamp_limits_cases c :
  (within_limits (pos_tgt c) /\ clamp_limits c = c) \/
  (LIMIT_POS < pos_tgt c /\
   clamp_limits c =
   set_dir 0 (set_dwell_rem DWELL_MS (set_pos_tgt LIMIT_POS c))) \/
  (pos_tgt c < - LIMIT_POS /\
   clamp_limits c =
   set_dir 0 (set_dwell_rem DWELL_MS (set_pos_tgt (- LIMIT_POS) c))).
Proof.
  unfold clamp_limits, within_limits.
  destruct (Z.ltb_spec LIMIT_POS (pos_tgt c)) as [Hhi|Hhi].
  - right; left. split; [assumption|].
    unfold set_dir at 1 2. unfold set_dwell_rem at 1 2.
    unfold set_pos_tgt at 1 2. cbn [pos_tgt].
    change (LIMIT_POS <? - LIMIT_POS) with false. reflexivity.
  - destruct (Z.ltb_spec (pos_tgt c) (- LIMIT_POS)) as [Hlo|Hlo].
    + right; right. split; [assumption|reflexivity].
    + left. split; [lia|reflexivity].
Qed.

Lemma advance_target_motion_inv c :
  (dir c = -1 \/ dir c = 0 \/ dir c = 1) ->
  0 <= dwell_rem c <= DWELL_MS ->
  0 <= ramp_rem c <= RAMP_MS ->
  (dir c = 0 <-> 0 < dwell_rem c) ->
  (dir (advance_target c) = -1 \/ dir (advance_target c) = 0
   \/ dir (advance_target c) = 1) /\
  0 <= dwell_rem (advance_target c) <= DWELL_MS /\
  0 <= ramp_rem (advance_target c) <= RAMP_MS /\
  (dir (advance_target c) = 0 <-> 0 < dwell_rem (advance_target c)).
Proof.
  unfold DWELL_MS, RAMP_MS. intros Hdir Hdw Hr Hiff.
  destruct (Z.ltb_spec 0 (dwell_rem c)) as [D|D].
  - assert (Hd0 : dir c = 0) by (apply Hiff; lia).
    unfold advance_target.
    replace (0 <? dwell_rem c) with true by (symmetry; apply Z.ltb_lt; lia).
    cbv iota zeta. ctx_simpl. rewrite Hd0. change (0 =? 0) with true.
    cbv iota.
    destruct (Z.eqb_spec (dwell_rem c - 1) 0) as [E|E]; ctx_simpl;
      unfold RAMP_MS; lia.
  - assert (Hnz : dir c <> 0) by (intros E; apply Hiff in E; lia).
    rewrite advance_target_moving by assumption.
    generalize (s32 (pos_tgt c + tick_delta (dir c) (ramp_rem c))). intros v.
    match goal with
    | |- context [clamp_limits ?x] =>
      destruct (clamp_limits_cases x) as [[_ ->]|[[_ ->]|[_ ->]]]
    end;
      destruct (Z.ltb_spec 0 (ramp_rem c)) as [R|R];
      unfold set_pos_tgt, set_ramp_rem, set_dir, set_dwell_rem, DWELL_MS;
      cbn [pos_tgt dir dwell_rem ramp_rem]; lia.
Qed.

Lemma advance_target_inv c :
  ctx_inv c -> ctx_inv (advance_target c).
Proof.
  intros (Hst & Hdir & Hdw & Hr & Hiff & Hfe & Hcc & He & Hn & Hp).
  pose proof (advance_target_i32 c Hp) as Hp'.
  pose proof (advance_target_motion_inv c Hdir Hdw Hr Hiff) as M.
  destruct (advance_target_frame c) as (Est & _ & Efe & _ & Ecc & Ee & En).
  unfold ctx_inv. rewrite Est, Efe, Ecc, Ee, En. tauto.
Qed.

Lemma fe_monitor_latch l fe :
  l = 0 \/ l = 1 ->
  fst (fe_monitor l fe) = 0 \/ fst (fe_monitor l fe) = 1.
Proof.
  intros H. unfold fe_monitor.
  repeat match goal with
         | |- context [if ?b then _ else _] => destruct b
         end; cbn [fst]; auto.
Qed.

Lemma edge_toggle_values e :
  e = 0 \/ e = 0x0010 ->
  u16 (Z.lxor e 0x0010) = 0 \/ u16 (Z.lxor e 0x0010) = 0x0010.
Proof. intros [-> | ->]; [right|left]; reflexivity. Qed.

Ltac inv_split :=
  unfold ctx_inv;
  unfold set_st, set_t0, set_pos_tgt, set_ramp_rem, set_need_release,
    set_fault_cool_rem, set_comm_cool_rem, set_fe_warn, set_edge;
  cbn [st t0 pos_tgt dir dwell_rem ramp_rem fe_warn fault_cool_rem
       comm_cool_rem edge need_release fst];
  unfold in_i32, RAMP_MS, DWELL_MS in *;
  repeat apply conj; first [assumption | lia | (left; reflexivity)
                            | (right; reflexivity) | tauto].

Lemma Run_ctx_inv g now inp c out :
  ctx_inv c -> ctx_inv (fst (fst (ServoTemplate_Run g now inp c out))).
Proof.
  intros H.
  pose proof H as (Hst & Hdir & Hdw & Hr & Hiff & Hfe & Hcc & He & Hn & Hp).
  unfold ServoTemplate_Run.
  destruct (g_in g); [|exact H].
  destruct (g_out g); [|exact H].
  destruct (status_word inp =? 0); [inv_split|].
  destruct (negb (Z.land (status_word inp) 8 =? 0)).
  { destruct (need_release c =? 0); inv_split. }
  destruct (0 <? fault_cool_rem c).
  { destruct (elapsed 1 now c); inv_split. }
  rewrite Hcc. change (0 <? 0) with false. cbv iota.
  destruct (negb (Z.land (status_word inp) 64 =? 0)); [inv_split|].
  destruct (Z.eqb_spec (st c) 0) as [E0|_].
  { destruct (Z.land (status_word inp) 111 =? 33); inv_split. }
  destruct (Z.eqb_spec (st c) 1) as [E1|_].
  { destruct (Z.land (status_word inp) 111 =? 35); inv_split. }
  destruct (Z.eqb_spec (st c) 2) as [E2|_].
  { cbv zeta.
    pose proof (s32_range (u32 (position_actual_value inp))) as Hr'.
    unfold RAMP_MS in *.
    destruct (Z.land (status_word inp) 111 =? 39); inv_split. }
  destruct (Z.eqb_spec (st c) 3) as [E3|_]; [|exact H].
  destruct (elapsed LOOP_PERIOD_MS now c); [|exact H].
  rewrite csp_producer_eq. cbv zeta.
  pose proof (advance_target_inv c H)
    as (Hst' & Hdir' & Hdw' & Hr' & Hiff' & Hfe' & Hcc' & He' & Hn' & Hp').
  pose proof (fe_monitor_latch (fe_warn (advance_target c))
                (s32 (u32 (following_error_actual inp))) Hfe') as Hl.
  pose proof (edge_toggle_values (edge (advance_target c)) He') as Ht.
  destruct (pos_tgt (advance_target c) =? pos_tgt c); inv_split.
Qed.

Lemma ctx0_inv : ctx_inv ctx0.
Proof.
  unfold ctx_inv, ctx0, DWELL_MS, RAMP_MS, COMM_COOLDOWN_MS, in_i32.
  ctx_simpl. pow2. intuition lia.
Qed.

Lemma run_ctx_inv g tr :
  forall c out, ctx_inv c -> ctx_inv (run_ctx g c out tr).
Proof.
  unfold run_ctx.
  induction tr as [|[now inp] tr IH]; intros c out H; simpl; [exact H|].
  pose proof (Run_ctx_inv g now inp c out H) as H1.
  destruct (ServoTemplate_Run g now inp c out) as [[c1 out1] ev].
  specialize (IH c1 out1 H1).
  destruct (run g c1 out1 tr) as [[c2 out2] evs]. exact IH.
Qed.

(** X8. Invariants of the control-loop context: in every execution from
    the initial context the stage is 0..3, the direction is -1, 0 or +1,
    the dwell and ramp countdowns stay within their configured lengths,
    the direction is 0 exactly while a dwell is running, the latch, the
    pulse flag and the edge bit are 0 or their one set value, the comm
    cooldown is never active and the running target is an [int32_t]
    value. *)
Theorem reachable_ctx_inv g o0 tr : ctx_inv (run_ctx g ctx0 o0 tr).
Proof. apply run_ctx_inv, ctx0_inv. Qed.

(** * What a call writes *)

(** A property of the effects that holds for every call from a context
    satisfying an invariant of the cycle function holds along every
    execution. *)
Lemma run_events_Forall (P : Ctx -> Prop) (Q : list Event -> Prop) g :
  (forall now inp c out,
     P c -> P (fst (fst (ServoTemplate_Run g now inp c out)))) ->
  (forall now inp c out,
     P c -> Q (snd (ServoTemplate_Run g now inp c out))) ->
  forall tr c out, P c -> Forall Q (run_events g c out tr).
Proof.
  intros HP HQ. unfold run_events.
  induction tr as [|[now inp] tr IH]; intros c out H; simpl; [constructor|].
  pose proof (HP now inp c out H) as H1.
  pose proof (HQ now inp c out H) as H2.
  destruct (ServoTemplate_Run g now inp c out) as [[c1 out1] ev].
  specialize (IH c1 out1 H1).
  destruct (run g c1 out1 tr) as [[c2 out2] evs]. now constructor.
Qed.

Lemma Run_writes_ok g now inp c out :
  edge c = 0 \/ edge c = 0x0010 ->
  call_writes_ok (snd (ServoTemplate_Run g now inp c out)).
Proof.
  intros He. unfold ServoTemplate_Run, call_writes_ok.
  destruct (g_in g); [|left; cbn; auto].
  destruct (g_out g); [|left; cbn; auto].
  destruct (status_word inp =? 0); [left; cbn; auto|].
  destruct (negb (Z.land (status_word inp) 8 =? 0)).
  { destruct (need_release c =? 0); left; cbn; auto. }
  destruct (0 <? fault_cool_rem c); [left; cbn; auto|].
  destruct (0 <? comm_cool_rem c); [left; cbn; auto|].
  destruct (negb (Z.land (status_word inp) 64 =? 0)); [left; cbn; auto|].
  destruct (st c =? 0).
  { destruct (Z.land (status_word inp) 111 =? 33); left; cbn; auto. }
  destruct (st c =? 1).
  { destruct (Z.land (status_word inp) 111 =? 35); left; cbn; auto 6. }
  destruct (st c =? 2).
  { right. cbv zeta. ctx_simpl.
    exists (s32 (u32 (s32 (u32 (position_actual_value inp))))).
    destruct (Z.land (status_word inp) 111 =? 39); cbn [snd app];
      (split; [reflexivity|]); (split; [apply s32_range|]);
      left; reflexivity. }
  destruct (st c =? 3); [|left; cbn; auto].
  destruct (elapsed LOOP_PERIOD_MS now c); [|left; cbn; auto].
  right. rewrite csp_producer_eq. cbv zeta. cbn [snd].
  destruct (advance_target_frame c) as (_ & _ & _ & _ & _ & Ee & _).
  destruct (fe_monitor_log (fe_warn (advance_target c))
              (s32 (u32 (following_error_actual inp)))) as [Hc Ht].
  exists (s32 (u32 (pos_tgt (advance_target c)))).
  cbn [app target_writes control_writes]. rewrite Hc, Ht, Ee.
  split; [reflexivity|]. split; [apply s32_range|].
  destruct (pos_tgt (advance_target c) =? pos_tgt c);
    destruct He as [-> | ->]; vm_compute; auto.
Qed.

(** X9. In every execution from the initial context each call writes
    either no target and at most one of the control words 0x0006, 0x0007
    and 0x0080, or exactly one target together with exactly one control
    word that is 0x000F or 0x001F.  No other control word is ever
    written. *)
Theorem reachable_writes_ok g o0 tr :
  Forall call_writes_ok (run_events g ctx0 o0 tr).
Proof.
  apply (run_events_Forall ctx_inv call_writes_ok g).
  - intros now inp c out. apply Run_ctx_inv.
  - intros now inp c out H. apply Run_writes_ok. apply H.
  - apply ctx0_inv.
Qed.

(** X10. A target is written only by a call that finds the images
    mapped, a live link, no fault bit, no switch-on disabled bit and no
    cooldown pending, and that starts in the aligning stage or, with a
    loop period elapsed, in the running stage.  In particular no target is
    written in the Shutdown and SwitchingOn stages or while a fault is
    handled. *)
Theorem target_written_only_when_enabled g now inp c out v :
  In v (target_writes (snd (ServoTemplate_Run g now inp c out))) ->
  mapped g /\ healthy inp /\
  fault_cool_rem c <= 0 /\ comm_cool_rem c <= 0 /\
  (st c = 2 \/ (st c = 3 /\ LOOP_PERIOD_MS <= s64 (now - t0 c))).
Proof.
  unfold ServoTemplate_Run, mapped, mappedb, healthy, elapsed.
  destruct (g_in g); [|intros []].
  destruct (g_out g); [|intros []].
  destruct (Z.eqb_spec (status_word inp) 0) as [|Hsw]; [intros []|].
  destruct (Z.eqb_spec (Z.land (status_word inp) 8) 0) as [H8|];
    [|destruct (need_release c =? 0); cbn; tauto].
  cbn [negb].
  destruct (Z.ltb_spec 0 (fault_cool_rem c)) as [|Hfc]; [cbn; tauto|].
  destruct (Z.ltb_spec 0 (comm_cool_rem c)) as [|Hcc]; [cbn; tauto|].
  destruct (Z.eqb_spec (Z.land (status_word inp) 64) 0) as [H40|];
    [|cbn; tauto].
  cbn [negb].
  destruct (Z.eqb_spec (st c) 0);
    [destruct (Z.land (status_word inp) 111 =? 33); cbn; tauto|].
  destruct (Z.eqb_spec (st c) 1);
    [destruct (Z.land (status_word inp) 111 =? 35); cbn; tauto|].
  destruct (Z.eqb_spec (st c) 2); [intros _; tauto|].
  destruct (Z.eqb_spec (st c) 3); [|intros []].
  destruct (Z.leb_spec LOOP_PERIOD_MS (s64 (now - t0 c))); [|intros []].
  intros _. tauto.
Qed.

Lemma target_written_only_when_enabled_witness :
  In 1000
    (target_writes
       (snd (ServoTemplate_Run g_mapped 5 (mkInputs 0x0023 1000 0 0)
               (mkCtx 2 0 0 1 0 0 0 0 0 0 0) (mkOutputs 7 0)))) /\
  healthy (mkInputs 0x0023 1000 0 0).
Proof.
  assert (H : In 1000
    (target_writes
       (snd (ServoTemplate_Run g_mapped 5 (mkInputs 0x0023 1000 0 0)
               (mkCtx 2 0 0 1 0 0 0 0 0 0 0) (mkOutputs 7 0)))))
    by (vm_compute; left; reflexivity).
  split; [exact H|].
  exact (proj1 (proj2 (target_written_only_when_enabled g_mapped 5
           (mkInputs 0x0023 1000 0 0) (mkCtx 2 0 0 1 0 0 0 0 0 0 0)
           (mkOutputs 7 0) 1000 H))).
Defined.


(** X11. Stage transitions.  A call leaves the stage as it is, or resets
    it to Shutdown because the status word has the switch-on disabled bit
    (and no fault bit), or advances it by exactly one, from a stage 0..2
    and only when the status word is healthy and matches the pattern of
    that stage under mask 0x006F.  No stage is ever skipped. *)
Theorem stage_transitions g now inp c out :
  let s' := st (fst (fst (ServoTemplate_Run g now inp c out))) in
  s' = st c \/
  (s' = 0 /\ Z.land (status_word inp) 0x0040 <> 0 /\
   Z.land (status_word inp) 0x0008 = 0) \/
  (s' = st c + 1 /\ 0 <= st c <= 2 /\ healthy inp /\
   Z.land (status_word inp) 0x006F = stage_pattern (st c)).
Proof.
  unfold ServoTemplate_Run, healthy, stage_pattern. cbv zeta.
  destruct (g_in g); [|left; reflexivity].
  destruct (g_out g); [|left; reflexivity].
  destruct (Z.eqb_spec (status_word inp) 0) as [|Hsw]; [left; reflexivity|].
  destruct (Z.eqb_spec (Z.land (status_word inp) 8) 0) as [H8|];
    [|destruct (need_release c =? 0); left; reflexivity].
  cbn [negb].
  destruct (0 <? fault_cool_rem c);
    [destruct (elapsed 1 now c); left; reflexivity|].
  destruct (0 <? comm_cool_rem c);
    [destruct (elapsed 1 now c); left; reflexivity|].
  destruct (Z.eqb_spec (Z.land (status_word inp) 64) 0) as [H40|H40];
    [|right; left; cbn; auto].
  cbn [negb].
  destruct (Z.eqb_spec (st c) 0) as [E|_].
  { destruct (Z.eqb_spec (Z.land (status_word inp) 111) 33);
      [right; right; rewrite E; cbn; repeat split; auto; lia
      | left; reflexivity]. }
  destruct (Z.eqb_spec (st c) 1) as [E|_].
  { destruct (Z.eqb_spec (Z.land (status_word inp) 111) 35);
      [right; right; rewrite E; cbn; repeat split; auto; lia
      | left; reflexivity]. }
  destruct (Z.eqb_spec (st c) 2) as [E|_].
  { destruct (Z.eqb_spec (Z.land (status_word inp) 111) 39);
      [right; right; rewrite E; cbn; repeat split; auto; lia
      | left; reflexivity]. }
  destruct (st c =? 3); [|left; reflexivity].
  destruct (elapsed LOOP_PERIOD_MS now c); [|left; reflexivity].
  left. rewrite csp_producer_eq. cbv zeta. cbn [fst st].
  apply advance_target_frame.
Qed.

(** * Loop period, faults and re-enabling *)





Lemma Run_fault g now inp c out :
  mapped g -> Z.land (status_word inp) 0x0008 <> 0 ->
  ServoTemplate_Run g now inp c out =
  (set_need_release (if need_release c =? 0 then 1 else 0) c,
   set_control_word (if need_release c =? 0 then 0x0080 else 0x0006) out,
   [WrControl (if need_release c =? 0 then 0x0080 else 0x0006)]).
Proof.
  intros Hg Hf. destruct (mapped_inv g Hg) as (a & b & Ha & Hb).
  unfold ServoTemplate_Run. rewrite Ha, Hb.
  assert (Hz : (status_word inp =? 0) = false).
  { apply Z.eqb_neq. intros E. rewrite E in Hf. now apply Hf. }
  apply Z.eqb_neq in Hf. rewrite Hz, Hf. cbn [negb].
  destruct (need_release c =? 0); reflexivity.
Qed.

(** X13. A persistent fault is pulsed for ever.  While every call reads
    the fault bit, the calls write alternately 0x0080 and 0x0006 (starting
    with 0x0080 when no pulse is pending), only the pulse flag of the
    context changes, and the target in the output image is not touched. *)
Theorem persistent_fault_pulses g tr :
  mapped g ->
  Forall (fun t : Tick => Z.land (status_word (snd t)) 0x0008 <> 0) tr ->
  forall c out,
    run_events g c out tr =
      pulse_seq (negb (need_release c =? 0)) (length tr) /\
    set_need_release 0 (run_ctx g c out tr) = set_need_release 0 c /\
    target_position (run_out g c out tr) = target_position out /\
    (tr <> [] ->
     need_release (run_ctx g c out tr) =
     if xorb (negb (need_release c =? 0)) (Nat.odd (length tr))
     then 1 else 0).
Proof.
  intros Hg Hall. unfold run_events, run_ctx, run_out.
  induction Hall as [|[now inp] tr Hf _ IH]; intros c out.
  - simpl. repeat split. congruence.
  - cbn [snd] in Hf. cbn [run length pulse_seq].
    rewrite (Run_fault g now inp c out Hg Hf).
    set (c1 := set_need_release _ c). set (out1 := set_control_word _ out).
    assert (Hp : negb (need_release c1 =? 0)
                 = negb (negb (need_release c =? 0))).
    { unfold c1. ctx_simpl. destruct (need_release c =? 0); reflexivity. }
    assert (Hn1 : need_release c1 = if need_release c =? 0 then 1 else 0)
      by reflexivity.
    destruct (IH c1 out1) as (Hev & Hctx & Htp & Hnr).
    destruct tr as [|t tr'].
    + cbn [run fst snd length pulse_seq]. repeat apply conj.
      * destruct (need_release c =? 0); reflexivity.
      * reflexivity.
      * reflexivity.
      * intros _. rewrite Hn1.
        destruct (need_release c =? 0); reflexivity.
    + specialize (Hnr ltac:(discriminate)).
      destruct (run g c1 out1 (t :: tr')) as [[c2 out2] evs].
      cbn [fst snd] in *.
      repeat apply conj.
      * rewrite Hev, Hp. destruct (need_release c =? 0); reflexivity.
      * rewrite Hctx. unfold c1. reflexivity.
      * rewrite Htp. reflexivity.
      * intros _. rewrite Hnr, Hp.
        rewrite (Nat.odd_succ (length (t :: tr'))), <- Nat.negb_odd.
        destruct (need_release c =? 0), (Nat.odd (length (t :: tr')));
          reflexivity.
Qed.

Lemma persistent_fault_pulses_witness :
  mapped g_mapped /\
  run_events g_mapped ctx0 out0
    [(1, sw_only 0x0008); (2, sw_only 0x0008); (3, sw_only 0x0008)] =
  [[WrControl 0x0080]; [WrControl 0x0006]; [WrControl 0x0080]].
Proof.
  split; [reflexivity|].
  assert (Hf : Forall
                 (fun t : Tick => Z.land (status_word (snd t)) 0x0008 <> 0)
                 [(1, sw_only 0x0008); (2, sw_only 0x0008);
                  (3, sw_only 0x0008)])
    by (repeat constructor; vm_compute; discriminate).
  exact (proj1 (persistent_fault_pulses g_mapped _ eq_refl Hf ctx0 out0)).
Defined.


(** The guarded branches of the cycle function, one lemma each. *)
Lemma Run_guards g inp c v :
  mapped g ->
  fault_cool_rem c <= 0 -> comm_cool_rem c <= 0 ->
  Z.land (status_word inp) 0x006F = v -> v <> 0 ->
  Z.land v 0x0008 = 0 -> Z.land v 0x0040 = 0 ->
  exists a b,
    g_in g = Some a /\ g_out g = Some b /\
    (status_word inp =? 0) = false /\
    negb (Z.land (status_word inp) 0x0008 =? 0) = false /\
    (0 <? fault_cool_rem c) = false /\
    (0 <? comm_cool_rem c) = false /\
    negb (Z.land (status_word inp) 0x0040 =? 0) = false.
Proof.
  intros Hg Hfc Hcc Hv Hnz H8 H40.
  destruct (mapped_inv g Hg) as (a & b & Ha & Hb).
  destruct (state_pattern_guards _ _ Hv Hnz H8 H40) as (G0 & G8 & G40).
  exists a, b. rewrite G0, G8, G40.
  repeat split; try assumption; apply Z.ltb_ge; assumption.
Qed.

Lemma Run_disabled g now inp c out :
  mapped g ->
  fault_cool_rem c <= 0 -> comm_cool_rem c <= 0 ->
  Z.land (status_word inp) 0x0008 = 0 ->
  Z.land (status_word inp) 0x0040 <> 0 ->
  ServoTemplate_Run g now inp c out =
  (set_st 0 c, set_control_word 0x0006 out, [WrControl 0x0006]).
Proof.
  intros Hg Hfc Hcc H8 H40.
  destruct (mapped_inv g Hg) as (a & b & Ha & Hb).
  unfold ServoTemplate_Run. rewrite Ha, Hb, H8.
  assert (Hz : (status_word inp =? 0) = false).
  { apply Z.eqb_neq. intros E. rewrite E in H40. now apply H40. }
  apply Z.eqb_neq in H40. rewrite Hz, H40. cbn [negb Z.eqb].
  replace (0 <? fault_cool_rem c) with false
    by (symmetry; apply Z.ltb_ge; lia).
  replace (0 <? comm_cool_rem c) with false
    by (symmetry; apply Z.ltb_ge; lia).
  reflexivity.
Qed.

Lemma Run_ready_to_switch_on g now inp c out :
  mapped g ->
  fault_cool_rem c <= 0 -> comm_cool_rem c <= 0 -> st c = 0 ->
  Z.land (status_word inp) 0x006F = 0x0021 ->
  ServoTemplate_Run g now inp c out =
  (set_st 1 c, set_control_word 0x0006 out,
   [WrControl 0x0006; DbgReadyToSwitchOn]).
Proof.
  intros Hg Hfc Hcc Hst Hv.
  destruct (Run_guards g inp c _ Hg Hfc Hcc Hv)
    as (a & b & Ha & Hb & G0 & G8 & Gf & Gc & G40);
    [lia | reflexivity | reflexivity |].
  unfold ServoTemplate_Run. rewrite Ha, Hb, G0, G8, Gf, Gc, G40, Hst, Hv.
  reflexivity.
Qed.

Lemma Run_switched_on g now inp c out :
  mapped g ->
  fault_cool_rem c <= 0 -> comm_cool_rem c <= 0 -> st c = 1 ->
  Z.land (status_word inp) 0x006F = 0x0023 ->
  ServoTemplate_Run g now inp c out =
  (set_st 2 c, set_control_word 0x0007 out,
   [WrControl 0x0007; DbgSwitchedOn]).
Proof.
  intros Hg Hfc Hcc Hst Hv.
  destruct (Run_guards g inp c _ Hg Hfc Hcc Hv)
    as (a & b & Ha & Hb & G0 & G8 & Gf & Gc & G40);
    [lia | reflexivity | reflexivity |].
  unfold ServoTemplate_Run. rewrite Ha, Hb, G0, G8, Gf, Gc, G40, Hst, Hv.
  reflexivity.
Qed.

Lemma Run_operation_enabled g now inp c out :
  mapped g ->
  fault_cool_rem c <= 0 -> comm_cool_rem c <= 0 -> st c = 2 ->
  Z.land (status_word inp) 0x006F = 0x0027 ->
  ServoTemplate_Run g now inp c out =
  (set_ramp_rem RAMP_MS
     (set_t0 now
        (set_st 3 (set_pos_tgt (s32 (u32 (position_actual_value inp))) c))),
   mkOutputs 0x000F (s32 (u32 (position_actual_value inp))),
   [WrTarget (s32 (u32 (position_actual_value inp))); WrControl 0x000F;
    DbgOperationEnabled]).
Proof.
  intros Hg Hfc Hcc Hst Hv.
  destruct (Run_guards g inp c _ Hg Hfc Hcc Hv)
    as (a & b & Ha & Hb & G0 & G8 & Gf & Gc & G40);
    [lia | reflexivity | reflexivity |].
  unfold ServoTemplate_Run. rewrite Ha, Hb, G0, G8, Gf, Gc, G40, Hst, Hv.
  cbv zeta. cbn [Z.eqb Pos.eqb app].
  unfold set_target_position, set_control_word, set_pos_tgt at 2 3 4.
  cbn [pos_tgt control_word target_position].
  rewrite (s32_u32 (s32 (u32 (position_actual_value inp)))).
  rewrite (s32_id (s32 _)) by apply s32_range.
  reflexivity.
Qed.

(** X14. A disable / enable cycle keeps the motion state.  From any
    context without a pending cooldown, a call that reads switch-on
    disabled followed by calls that read ready to switch on, switched on
    and operation enabled ends in the Running stage with the target
    re-aligned to the actual position and the ramp re-armed, while the
    direction, a dwell in progress, the edge bit and the latch are the ones
    from before the cycle.  The control words written are 0x0006, 0x0006,
    0x0007, 0x000F. *)
Theorem reenable_keeps_motion_state g c out n1 n2 n3 n4 i1 i2 i3 i4 :
  mapped g ->
  fault_cool_rem c <= 0 -> comm_cool_rem c <= 0 ->
  Z.land (status_word i1) 0x0008 = 0 ->
  Z.land (status_word i1) 0x0040 <> 0 ->
  Z.land (status_word i2) 0x006F = 0x0021 ->
  Z.land (status_word i3) 0x006F = 0x0023 ->
  Z.land (status_word i4) 0x006F = 0x0027 ->
  run g c out [(n1, i1); (n2, i2); (n3, i3); (n4, i4)] =
  (mkCtx 3 n4 (s32 (u32 (position_actual_value i4))) (dir c) (dwell_rem c)
         RAMP_MS (fe_warn c) (fault_cool_rem c) (comm_cool_rem c) (edge c)
         (need_release c),
   mkOutputs 0x000F (s32 (u32 (position_actual_value i4))),
   [[WrControl 0x0006];
    [WrControl 0x0006; DbgReadyToSwitchOn];
    [WrControl 0x0007; DbgSwitchedOn];
    [WrTarget (s32 (u32 (position_actual_value i4))); WrControl 0x000F;
     DbgOperationEnabled]]).
Proof.
  intros Hg Hfc Hcc H8 H40 H2 H3 H4.
  cbn [run].
  rewrite (Run_disabled g n1 i1 c out Hg Hfc Hcc H8 H40).
  rewrite (Run_ready_to_switch_on g n2 i2 (set_st 0 c) _ Hg Hfc Hcc
             eq_refl H2).
  rewrite (Run_switched_on g n3 i3 (set_st 1 (set_st 0 c)) _ Hg Hfc Hcc
             eq_refl H3).
  rewrite (Run_operation_enabled g n4 i4 (set_st 2 (set_st 1 (set_st 0 c))) _
             Hg Hfc Hcc eq_refl H4).
  reflexivity.
Qed.

Lemma reenable_keeps_motion_state_witness :
  run g_mapped (mkCtx 3 100 200000 0 250 40 1 0 0 16 0)
    (mkOutputs 0x001F 200000)
    [(101, mkInputs 0x0250 199000 0 0); (102, mkInputs 0x0231 199000 0 0);
     (103, mkInputs 0x0233 199000 0 0); (104, mkInputs 0x0237 199000 0 0)] =
  (mkCtx 3 104 199000 0 250 RAMP_MS 1 0 0 16 0, mkOutputs 0x000F 199000,
   [[WrControl 0x0006];
    [WrControl 0x0006; DbgReadyToSwitchOn];
    [WrControl 0x0007; DbgSwitchedOn];
    [WrTarget 199000; WrControl 0x000F; DbgOperationEnabled]]).
Proof.
  apply (reenable_keeps_motion_state g_mapped
           (mkCtx 3 100 200000 0 250 40 1 0 0 16 0) (mkOutputs 0x001F 200000)
           101 102 103 104
           (mkInputs 0x0250 199000 0 0) (mkInputs 0x0231 199000 0 0)
           (mkInputs 0x0233 199000 0 0) (mkInputs 0x0237 199000 0 0));
    try reflexivity; simpl; lia.
Defined.


(** * The producer over several ticks *)

(** One producer tick: stage, cooldowns and pulse flag stay, the time
    reference is the clock value, the motion fields are those of
    [advance_target] and the target written is the new running target. *)
Lemma producer_step g now inp c out :
  producer_tick g now inp c ->
  in_i32 (pos_tgt c) ->
  let r := ServoTemplate_Run g now inp c out in
  let a := advance_target c in
  st (fst (fst r)) = 3 /\ t0 (fst (fst r)) = now /\
  fault_cool_rem (fst (fst r)) = fault_cool_rem c /\
  comm_cool_rem (fst (fst r)) = comm_cool_rem c /\
  pos_tgt (fst (fst r)) = pos_tgt a /\ dir (fst (fst r)) = dir a /\
  dwell_rem (fst (fst r)) = dwell_rem a /\
  ramp_rem (fst (fst r)) = ramp_rem a /\
  in_i32 (pos_tgt a) /\
  target_writes (snd r) = [pos_tgt a].
Proof.
  intros Hp Hi. cbv zeta.
  rewrite (Run_producer g now inp c out Hp), csp_producer_eq. cbv zeta.
  destruct (advance_target_frame c) as (Est & _ & _ & Efc & Ecc & _ & _).
  pose proof (advance_target_i32 c Hi) as Hi'.
  destruct (fe_monitor_log (fe_warn (advance_target c))
              (s32 (u32 (following_error_actual inp)))) as [_ Ht].
  cbn [fst snd st t0 fault_cool_rem comm_cool_rem pos_tgt dir dwell_rem
       ramp_rem app target_writes].
  rewrite Est, Efc, Ecc, Ht, (s32_u32_id _ Hi').
  assert (st c = 3) by apply Hp. repeat split; auto; apply Hi'.
Qed.

(** X15. The clamp is a saturation.  On a producer tick outside a dwell,
    when the sum of running target and increment fits an [int32_t], the
    new target is that sum limited to [-LIMIT_POS, LIMIT_POS]; a dwell of
    [DWELL_MS] ticks starts and the direction becomes 0 exactly when the
    sum was outside the limits, otherwise direction and dwell countdown
    are unchanged. *)
Theorem clamp_is_saturation g now inp c out :
  producer_tick g now inp c ->
  in_i32 (pos_tgt c) ->
  dwell_rem c <= 0 ->
  in_i32 (pos_tgt c + tick_delta (dir c) (ramp_rem c)) ->
  let v := pos_tgt c + tick_delta (dir c) (ramp_rem c) in
  let c' := fst (fst (ServoTemplate_Run g now inp c out)) in
  pos_tgt c' = Z.max (- LIMIT_POS) (Z.min LIMIT_POS v) /\
  ((within_limits v /\ dir c' = dir c /\ dwell_rem c' = dwell_rem c) \/
   (~ within_limits v /\ dir c' = 0 /\ dwell_rem c' = DWELL_MS)).
Proof.
  intros Hp Hi Hd Hv. cbv zeta.
  destruct (producer_step g now inp c out Hp Hi)
    as (_ & _ & _ & _ & -> & -> & -> & _).
  rewrite advance_target_moving by assumption.
  rewrite (s32_id _ Hv).
  set (v := pos_tgt c + tick_delta (dir c) (ramp_rem c)).
  set (c1 := if 0 <? ramp_rem c then set_ramp_rem (ramp_rem c - 1) c else c).
  assert (Hd1 : dir c1 = dir c /\ dwell_rem c1 = dwell_rem c)
    by (unfold c1; destruct (0 <? ramp_rem c); split; reflexivity).
  destruct (clamp_limits_cases (set_pos_tgt v c1))
    as [[Hw ->]|[[Hhi ->]|[Hlo ->]]];
    unfold within_limits, LIMIT_POS in *; ctx_simpl.
  - split; [lia|]. left. tauto.
  - split; [lia|]. right. repeat split; try reflexivity. lia.
  - split; [lia|]. right. repeat split; try reflexivity. lia.
Qed.

Lemma clamp_is_saturation_witness :
  producer_tick g_mapped 101 (sw_only 0x0027)
    (mkCtx 3 100 199900 1 0 0 0 0 0 0 0) /\
  pos_tgt (fst (fst (ServoTemplate_Run g_mapped 101 (sw_only 0x0027)
                       (mkCtx 3 100 199900 1 0 0 0 0 0 0 0)
                       (mkOutputs 0x000F 199900)))) =
  Z.max (- LIMIT_POS) (Z.min LIMIT_POS (199900 + tick_delta 1 0)).
Proof.
  assert (Hp : producer_tick g_mapped 101 (sw_only 0x0027)
                 (mkCtx 3 100 199900 1 0 0 0 0 0 0 0))
    by (vm_compute; repeat split; discriminate).
  split; [exact Hp|].
  assert (Hi : in_i32 199900)
    by (vm_compute; split; [discriminate|reflexivity]).
  assert (Hv : in_i32 (199900 + tick_delta 1 0))
    by (vm_compute; split; [discriminate|reflexivity]).
  assert (Hd : 0 <= 0) by lia.
  exact (proj1 (clamp_is_saturation g_mapped 101 (sw_only 0x0027)
           (mkCtx 3 100 199900 1 0 0 0 0 0 0 0) (mkOutputs 0x000F 199900)
           Hp Hi Hd Hv)).
Defined.


Lemma run_ctx_cons g c out now inp tr :
  run_ctx g c out ((now, inp) :: tr) =
  run_ctx g (fst (fst (ServoTemplate_Run g now inp c out)))
          (snd (fst (ServoTemplate_Run g now inp c out))) tr.
Proof.
  unfold run_ctx. cbn [run].
  destruct (ServoTemplate_Run g now inp c out) as [[c1 out1] ev].
  cbn [fst snd]. destruct (run g c1 out1 tr) as [[c2 out2] evs]. reflexivity.
Qed.

Lemma run_events_cons g c out now inp tr :
  run_events g c out ((now, inp) :: tr) =
  snd (ServoTemplate_Run g now inp c out)
  :: run_events g (fst (fst (ServoTemplate_Run g now inp c out)))
       (snd (fst (ServoTemplate_Run g now inp c out))) tr.
Proof.
  unfold run_events. cbn [run].
  destruct (ServoTemplate_Run g now inp c out) as [[c1 out1] ev].
  cbn [fst snd]. destruct (run g c1 out1 tr) as [[c2 out2] evs]. reflexivity.
Qed.

Lemma producing_tick g now inp c :
  producing g c -> healthy inp -> LOOP_PERIOD_MS <= s64 (now - t0 c) ->
  producer_tick g now inp c.
Proof.
  intros (Hg & Hst & Hfc & Hcc & _) (H0 & H8 & H40) Hel.
  unfold producer_tick. tauto.
Qed.

Lemma producing_step g now inp c out :
  producing g c -> producer_tick g now inp c ->
  producing g (fst (fst (ServoTemplate_Run g now inp c out))).
Proof.
  intros Hc Hp. pose proof Hc as (Hg & Hst & Hfc & Hcc & Hi).
  destruct (producer_step g now inp c out Hp Hi)
    as (E1 & _ & E3 & E4 & E5 & _ & _ & _ & Hi' & _).
  unfold producing. rewrite E1, E3, E4, E5. tauto.
Qed.

Lemma dwell_continue c :
  1 < dwell_rem c ->
  dir (advance_target c) = dir c /\
  ramp_rem (advance_target c) = ramp_rem c.
Proof.
  intros H. unfold advance_target.
  replace (0 <? dwell_rem c) with true by (symmetry; apply Z.ltb_lt; lia).
  cbv iota zeta. ctx_simpl.
  replace (dwell_rem c - 1 =? 0) with false
    by (symmetry; apply Z.eqb_neq; lia).
  split; reflexivity.
Qed.

(** X16. A dwell lasts exactly as many producer ticks as its countdown
    says.  In Running with direction 0 and [dwell_rem = k], over healthy
    ticks at least one loop period apart: every one of the first [k] ticks
    writes the unchanged target; while fewer than [k] ticks have run the
    direction is still 0 and the ramp countdown untouched; the [k]-th tick
    sets the direction to -1 and arms the ramp with [RAMP_MS]. *)
Theorem dwell_lasts_exactly g tr :
  forall c out,
    producing g c -> dir c = 0 -> ticks_ok (t0 c) tr ->
    Z.of_nat (length tr) <= dwell_rem c ->
    let c' := run_ctx g c out tr in
    pos_tgt c' = pos_tgt c /\
    dwell_rem c' = dwell_rem c - Z.of_nat (length tr) /\
    Forall (fun ev => target_writes ev = [pos_tgt c]) (run_events g c out tr) /\
    (Z.of_nat (length tr) < dwell_rem c ->
     dir c' = 0 /\ ramp_rem c' = ramp_rem c) /\
    (tr <> [] -> Z.of_nat (length tr) = dwell_rem c ->
     dir c' = -1 /\ ramp_rem c' = RAMP_MS).
Proof.
  induction tr as [|[now inp] tr IH]; intros c out Hc Hdir Hok Hlen; cbv zeta.
  - change (run_ctx g c out []) with c. cbn [length Z.of_nat].
    repeat split; try lia; try assumption; try constructor; congruence.
  - cbn [ticks_ok] in Hok. destruct Hok as (Hh & Hel & Hok).
    rewrite run_ctx_cons, run_events_cons.
    pose proof (producing_tick g now inp c Hc Hh Hel) as Hp.
    pose proof (producing_step g now inp c out Hc Hp) as Hc1.
    pose proof Hc as (_ & _ & _ & _ & Hi).
    destruct (producer_step g now inp c out Hp Hi)
      as (_ & Et & _ & _ & Epos & Edir & Edw & Er & _ & Ew).
    set (c1 := fst (fst (ServoTemplate_Run g now inp c out))) in *.
    set (o1 := snd (fst (ServoTemplate_Run g now inp c out))) in *.
    cbn [length] in *. rewrite Nat2Z.inj_succ in *.
    assert (Hd : 0 < dwell_rem c) by lia.
    destruct (dwell_holds_target c Hd) as [Hpa Hda].
    rewrite Hpa in Epos, Ew. rewrite Hda in Edw.
    destruct (Z.eq_dec (dwell_rem c) 1) as [E1|E1].
    + assert (tr = [])
        by (destruct tr; [reflexivity|cbn [length] in Hlen; lia]).
      subst tr. change (run_ctx g c1 o1 []) with c1.
      change (run_events g c1 o1 []) with (@nil (list Event)).
      destruct (dwell_end_direction c E1 Hdir) as (Ed & Era & _).
      cbn [length Z.of_nat] in *.
      repeat split; try lia; try congruence.
      constructor; [exact Ew|constructor].
    + assert (H1 : 1 < dwell_rem c) by lia.
      destruct (dwell_continue c H1) as [Ed Era].
      assert (Hdir1 : dir c1 = 0) by congruence.
      rewrite <- Et in Hok.
      destruct (IH c1 o1 Hc1 Hdir1 Hok ltac:(lia))
        as (Ip & Id & If & Ilt & Ieq).
      rewrite Epos in Ip, If.
      repeat split.
      * exact Ip.
      * lia.
      * constructor; [exact Ew|exact If].
      * apply Ilt. lia.
      * rewrite (proj2 (Ilt ltac:(lia))). congruence.
      * destruct tr as [|t tr']; [cbn [length Z.of_nat] in *; lia|].
        apply Ieq; [discriminate|lia].
      * destruct tr as [|t tr']; [cbn [length Z.of_nat] in *; lia|].
        apply Ieq; [discriminate|lia].
Qed.

Lemma dwell_lasts_exactly_witness :
  producing g_mapped (mkCtx 3 100 200000 0 3 7 0 0 0 16 0) /\
  ticks_ok 100 (ticks_from 3 101 (sw_only 0x0027)) /\
  dir (run_ctx g_mapped (mkCtx 3 100 200000 0 3 7 0 0 0 16 0)
         (mkOutputs 0x001F 200000) (ticks_from 3 101 (sw_only 0x0027))) = -1 /\
  ramp_rem (run_ctx g_mapped (mkCtx 3 100 200000 0 3 7 0 0 0 16 0)
         (mkOutputs 0x001F 200000) (ticks_from 3 101 (sw_only 0x0027)))
  = RAMP_MS.
Proof.
  assert (Hc : producing g_mapped (mkCtx 3 100 200000 0 3 7 0 0 0 16 0))
    by (vm_compute; repeat split; discriminate).
  assert (Hok : ticks_ok 100 (ticks_from 3 101 (sw_only 0x0027)))
    by (vm_compute; repeat split; discriminate).
  assert (Hl : Z.of_nat (length (ticks_from 3 101 (sw_only 0x0027))) <= 3)
    by (simpl; lia).
  split; [exact Hc|]. split; [exact Hok|].
  apply (proj2 (proj2 (proj2 (proj2
           (dwell_lasts_exactly g_mapped
              (ticks_from 3 101 (sw_only 0x0027))
              (mkCtx 3 100 200000 0 3 7 0 0 0 16 0)
              (mkOutputs 0x001F 200000) Hc eq_refl Hok Hl))))).
  - discriminate.
  - reflexivity.
Defined.


Lemma moving_step_inside c d :
  dwell_rem c <= 0 -> dir c = d ->
  in_i32 (pos_tgt c + tick_delta d (ramp_rem c)) ->
  within_limits (pos_tgt c + tick_delta d (ramp_rem c)) ->
  pos_tgt (advance_target c) = pos_tgt c + tick_delta d (ramp_rem c) /\
  dir (advance_target c) = d /\
  dwell_rem (advance_target c) = dwell_rem c /\
  ramp_rem (advance_target c) =
    (if 0 <? ramp_rem c then ramp_rem c - 1 else ramp_rem c).
Proof.
  intros Hd Hdir Hi Hw. rewrite advance_target_moving by assumption.
  rewrite Hdir, (s32_id _ Hi).
  rewrite clamp_limits_inside
    by (unfold set_pos_tgt; cbn [pos_tgt]; assumption).
  destruct (0 <? ramp_rem c); unfold set_pos_tgt, set_ramp_rem;
    cbn [pos_tgt dir dwell_rem ramp_rem]; auto.
Qed.

(** The ramp from any point of the countdown: [j] ticks starting with
    [u = RAMP_MS - ramp_rem] ticks already used add the increments
    [u + 1, ..., u + j]. *)
Lemma ramp_run g d tr :
  d = 1 \/ d = -1 ->
  forall c out,
    producing g c -> dwell_rem c <= 0 -> dir c = d ->
    0 <= ramp_rem c <= RAMP_MS ->
    Z.of_nat (length tr) <= ramp_rem c ->
    ticks_ok (t0 c) tr ->
    within_limits (pos_tgt c) ->
    - (2 * LIMIT_POS) <=
      2 * pos_tgt c + d * Z.of_nat (length tr)
                      * (2 * (RAMP_MS - ramp_rem c) + Z.of_nat (length tr) + 1)
      <= 2 * LIMIT_POS ->
    let c' := run_ctx g c out tr in
    2 * (pos_tgt c' - pos_tgt c) =
      d * Z.of_nat (length tr)
      * (2 * (RAMP_MS - ramp_rem c) + Z.of_nat (length tr) + 1) /\
    ramp_rem c' = ramp_rem c - Z.of_nat (length tr) /\
    dir c' = d /\ dwell_rem c' = dwell_rem c.
Proof.
  intros Hd.
  induction tr as [|[now inp] tr IH];
    intros c out Hc Hdw Hdir Hr Hlen Hok Hw Hfin; cbv zeta.
  - change (run_ctx g c out []) with c. cbn [length Z.of_nat].
    repeat split; try lia; assumption.
  - cbn [ticks_ok] in Hok. destruct Hok as (Hh & Hel & Hok).
    rewrite run_ctx_cons.
    pose proof (producing_tick g now inp c Hc Hh Hel) as Hp.
    pose proof (producing_step g now inp c out Hc Hp) as Hc1.
    pose proof Hc as (_ & _ & _ & _ & Hi).
    destruct (producer_step g now inp c out Hp Hi)
      as (_ & Et & _ & _ & Epos & Edir & Edw & Er & _ & _).
    set (c1 := fst (fst (ServoTemplate_Run g now inp c out))) in *.
    set (o1 := snd (fst (ServoTemplate_Run g now inp c out))) in *.
    cbn [length] in *. rewrite Nat2Z.inj_succ in *.
    set (j := Z.of_nat (length tr)) in *.
    assert (Hj : 0 <= j) by apply Nat2Z.is_nonneg.
    set (r := ramp_rem c) in *.
    assert (Hdelta : tick_delta d r = d * (RAMP_MS - r + 1))
      by (apply tick_delta_ramp; [assumption|unfold r; lia]).
    unfold within_limits, LIMIT_POS, RAMP_MS in *.
    assert (Hw1 : -200000 <= pos_tgt c + tick_delta d r <= 200000)
      by (rewrite Hdelta; destruct Hd; subst d; nia).
    destruct (moving_step_inside c d Hdw Hdir) as (Ap & Ad & Aw & Ar).
    { fold r. unfold in_i32. pow2. lia. }
    { fold r. unfold within_limits, LIMIT_POS. exact Hw1. }
    fold r in Ap, Ar.
    replace (0 <? r) with true in Ar by (symmetry; apply Z.ltb_lt; lia).
    rewrite Ap in Epos. rewrite Ad in Edir. rewrite Aw in Edw.
    rewrite Ar in Er.
    rewrite <- Et in Hok.
    assert (P1 : dwell_rem c1 <= 0) by (rewrite Edw; exact Hdw).
    assert (P2 : 0 <= ramp_rem c1 <= 300) by (rewrite Er; lia).
    assert (P3 : j <= ramp_rem c1) by (rewrite Er; lia).
    assert (P4 : -200000 <= pos_tgt c1 <= 200000)
      by (rewrite Epos; exact Hw1).
    assert (P5 : - (2 * 200000) <=
                 2 * pos_tgt c1 + d * j * (2 * (300 - ramp_rem c1) + j + 1)
                 <= 2 * 200000)
      by (rewrite Epos, Er, Hdelta; destruct Hd; subst d; nia).
    destruct (IH c1 o1 Hc1 P1 Edir P2 P3 Hok P4 P5) as (Ip & Ir & Id & Iw).
    fold j in Ip, Ir. rewrite Epos, Er, Hdelta in Ip. rewrite Er in Ir.
    repeat split; try lia; try congruence; destruct Hd; subst d; nia.
Qed.

(** X17. Distance covered by a ramp.  In Running outside a dwell, with
    direction [d] (+1 or -1) and the ramp just armed, [j <= RAMP_MS]
    healthy ticks at least one loop period apart move the target by
    [d * j * (j + 1) / 2] counts as long as that stays inside the limits:
    the increments are 1, 2, ..., j.  A full ramp ([j = RAMP_MS]) covers
    45150 counts and leaves the countdown at 0. *)
Theorem ramp_distance g d tr c out :
  d = 1 \/ d = -1 ->
  producing g c -> dwell_rem c <= 0 -> dir c = d ->
  ramp_rem c = RAMP_MS ->
  Z.of_nat (length tr) <= RAMP_MS ->
  ticks_ok (t0 c) tr ->
  within_limits (pos_tgt c) ->
  within_limits
    (pos_tgt c + d * (Z.of_nat (length tr) * (Z.of_nat (length tr) + 1) / 2)) ->
  let c' := run_ctx g c out tr in
  pos_tgt c' =
    pos_tgt c + d * (Z.of_nat (length tr) * (Z.of_nat (length tr) + 1) / 2) /\
  ramp_rem c' = RAMP_MS - Z.of_nat (length tr) /\
  dir c' = d /\ dwell_rem c' = dwell_rem c.
Proof.
  intros Hd Hc Hdw Hdir Hr Hlen Hok Hw Hfin. cbv zeta.
  set (j := Z.of_nat (length tr)) in *.
  assert (Hj : 0 <= j) by apply Nat2Z.is_nonneg.
  assert (Hev : j * (j + 1) = 2 * (j * (j + 1) / 2)).
  { assert (E : (j * (j + 1)) mod 2 = 0).
    { rewrite Z.mul_mod by lia.
      destruct (Z.mod_pos_bound j 2 ltac:(lia)) as [? ?].
      assert (Hc2 : j mod 2 = 0 \/ j mod 2 = 1) by lia.
      rewrite Z.add_mod by lia.
      destruct Hc2 as [-> | ->]; reflexivity. }
    pose proof (Z.div_mod (j * (j + 1)) 2 ltac:(lia)). lia. }
  set (h := j * (j + 1) / 2) in *.
  destruct (ramp_run g d tr Hd c out Hc Hdw Hdir) as (Ip & Ir & Id & Iw);
    try assumption.
  - rewrite Hr. unfold RAMP_MS. lia.
  - rewrite Hr. fold j. exact Hlen.
  - rewrite Hr. fold j. unfold within_limits, LIMIT_POS in *.
    replace (2 * (RAMP_MS - RAMP_MS) + j + 1) with (j + 1) by lia.
    replace (d * j * (j + 1)) with (d * (j * (j + 1))) by lia.
    rewrite Hev. destruct Hd; subst d; lia.
  - fold j in Ip, Ir. rewrite Hr in Ip, Ir.
    replace (2 * (RAMP_MS - RAMP_MS) + j + 1) with (j + 1) in Ip by lia.
    replace (d * j * (j + 1)) with (d * (j * (j + 1))) in Ip by lia.
    rewrite Hev in Ip.
    repeat split; try assumption. lia.
Qed.

Lemma ramp_distance_witness :
  producing g_mapped (mkCtx 3 0 1000 (-1) 0 300 0 0 0 0 0) /\
  ticks_ok 0 (ticks_from 4 1 (sw_only 0x0027)) /\
  pos_tgt (run_ctx g_mapped (mkCtx 3 0 1000 (-1) 0 300 0 0 0 0 0)
             (mkOutputs 0x000F 1000) (ticks_from 4 1 (sw_only 0x0027))) =
  1000 + -1 * (4 * (4 + 1) / 2).
Proof.
  assert (Hc : producing g_mapped (mkCtx 3 0 1000 (-1) 0 300 0 0 0 0 0))
    by (vm_compute; repeat split; discriminate).
  assert (Hok : ticks_ok 0 (ticks_from 4 1 (sw_only 0x0027)))
    by (vm_compute; repeat split; discriminate).
  split; [exact Hc|]. split; [exact Hok|].
  assert (Hl : Z.of_nat (length (ticks_from 4 1 (sw_only 0x0027))) <= RAMP_MS)
    by (vm_compute; discriminate).
  assert (Hw : within_limits 1000) by (vm_compute; split; discriminate).
  assert (Hf : within_limits (1000 + -1 * (4 * (4 + 1) / 2)))
    by (vm_compute; split; discriminate).
  assert (Hd : 0 <= 0) by lia.
  exact (proj1 (ramp_distance g_mapped (-1)
           (ticks_from 4 1 (sw_only 0x0027))
           (mkCtx 3 0 1000 (-1) 0 300 0 0 0 0 0) (mkOutputs 0x000F 1000)
           (or_intror eq_refl) Hc Hd eq_refl eq_refl Hl Hok Hw Hf)).
Defined.


Lemma tick_delta_cruise d r :
  d = 1 \/ d = -1 -> r <= 0 -> tick_delta d r = d * INC_STEP.
Proof.
  intros Hd Hr. unfold tick_delta, INC_STEP.
  replace (0 <? r) with false by (symmetry; apply Z.ltb_ge; lia).
  apply s32_id. unfold in_i32; pow2. lia.
Qed.

(** X18. Cruise after the ramp.  In Running outside a dwell and with the
    ramp finished, [j] healthy ticks at least one loop period apart move
    the target by [d * INC_STEP * j] counts as long as that stays inside
    the limits; direction and countdowns do not change. *)
Theorem cruise_distance g d tr :
  d = 1 \/ d = -1 ->
  forall c out,
    producing g c -> dwell_rem c <= 0 -> dir c = d -> ramp_rem c <= 0 ->
    ticks_ok (t0 c) tr ->
    within_limits (pos_tgt c) ->
    within_limits (pos_tgt c + d * INC_STEP * Z.of_nat (length tr)) ->
    let c' := run_ctx g c out tr in
    pos_tgt c' = pos_tgt c + d * INC_STEP * Z.of_nat (length tr) /\
    ramp_rem c' = ramp_rem c /\ dir c' = d /\ dwell_rem c' = dwell_rem c.
Proof.
  intros Hd.
  induction tr as [|[now inp] tr IH];
    intros c out Hc Hdw Hdir Hr Hok Hw Hfin; cbv zeta.
  - change (run_ctx g c out []) with c. cbn [length Z.of_nat].
    repeat split; try lia; assumption.
  - cbn [ticks_ok] in Hok. destruct Hok as (Hh & Hel & Hok).
    rewrite run_ctx_cons.
    pose proof (producing_tick g now inp c Hc Hh Hel) as Hp.
    pose proof (producing_step g now inp c out Hc Hp) as Hc1.
    pose proof Hc as (_ & _ & _ & _ & Hi).
    destruct (producer_step g now inp c out Hp Hi)
      as (_ & Et & _ & _ & Epos & Edir & Edw & Er & _ & _).
    set (c1 := fst (fst (ServoTemplate_Run g now inp c out))) in *.
    set (o1 := snd (fst (ServoTemplate_Run g now inp c out))) in *.
    cbn [length] in *. rewrite Nat2Z.inj_succ in *.
    set (j := Z.of_nat (length tr)) in *.
    assert (Hj : 0 <= j) by apply Nat2Z.is_nonneg.
    pose proof (tick_delta_cruise d (ramp_rem c) Hd Hr) as Hdelta.
    unfold within_limits, LIMIT_POS, INC_STEP in *.
    assert (Hw1 : -200000 <= pos_tgt c + tick_delta d (ramp_rem c) <= 200000)
      by (rewrite Hdelta; destruct Hd; subst d; lia).
    destruct (moving_step_inside c d Hdw Hdir) as (Ap & Ad & Aw & Ar).
    { unfold in_i32. pow2. lia. }
    { unfold within_limits, LIMIT_POS. exact Hw1. }
    replace (0 <? ramp_rem c) with false in Ar
      by (symmetry; apply Z.ltb_ge; lia).
    rewrite Ap in Epos. rewrite Ad in Edir. rewrite Aw in Edw.
    rewrite Ar in Er. rewrite <- Et in Hok.
    assert (P1 : dwell_rem c1 <= 0) by (rewrite Edw; exact Hdw).
    assert (P2 : ramp_rem c1 <= 0) by (rewrite Er; exact Hr).
    assert (P4 : -200000 <= pos_tgt c1 <= 200000)
      by (rewrite Epos; exact Hw1).
    assert (P5 : -200000 <= pos_tgt c1 + d * 300 * j <= 200000)
      by (rewrite Epos, Hdelta; lia).
    destruct (IH c1 o1 Hc1 P1 Edir P2 Hok P4 P5) as (Ip & Ir & Id & Iw).
    fold j in Ip. rewrite Epos, Hdelta in Ip.
    repeat split; try lia; congruence.
Qed.

Lemma cruise_distance_witness :
  producing g_mapped (mkCtx 3 0 1000 1 0 0 0 0 0 0 0) /\
  ticks_ok 0 (ticks_from 3 1 (sw_only 0x0027)) /\
  pos_tgt (run_ctx g_mapped (mkCtx 3 0 1000 1 0 0 0 0 0 0 0)
             (mkOutputs 0x000F 1000) (ticks_from 3 1 (sw_only 0x0027))) =
  1000 + 1 * INC_STEP * 3.
Proof.
  assert (Hc : producing g_mapped (mkCtx 3 0 1000 1 0 0 0 0 0 0 0))
    by (vm_compute; repeat split; discriminate).
  assert (Hok : ticks_ok 0 (ticks_from 3 1 (sw_only 0x0027)))
    by (vm_compute; repeat split; discriminate).
  split; [exact Hc|]. split; [exact Hok|].
  assert (Hw : within_limits 1000) by (vm_compute; split; discriminate).
  assert (Hf : within_limits (1000 + 1 * INC_STEP * 3))
    by (vm_compute; split; discriminate).
  assert (Hd : 0 <= 0) by lia.
  exact (proj1 (cruise_distance g_mapped 1 (ticks_from 3 1 (sw_only 0x0027))
           (or_introl eq_refl)
           (mkCtx 3 0 1000 1 0 0 0 0 0 0 0) (mkOutputs 0x000F 1000)
           Hc Hd eq_refl Hd Hok Hw Hf)).
Defined.


(** * What the inputs can influence *)

(** X19. The following error and the error code do not steer the axis.
    Two calls from the same context at the same clock value whose input
    images agree on status word and actual position leave the same output
    image, write the same control word and target, and give contexts that
    differ at most in the following-error latch; if the images also agree
    on the following error (and differ only in the error code) the calls
    have the same result altogether. *)
Theorem following_error_does_not_steer g now c out inp inp' :
  status_word inp = status_word inp' ->
  position_actual_value inp = position_actual_value inp' ->
  let r := ServoTemplate_Run g now inp c out in
  let r' := ServoTemplate_Run g now inp' c out in
  snd (fst r) = snd (fst r') /\
  control_writes (snd r) = control_writes (snd r') /\
  target_writes (snd r) = target_writes (snd r') /\
  set_fe_warn 0 (fst (fst r)) = set_fe_warn 0 (fst (fst r')) /\
  (following_error_actual inp = following_error_actual inp' -> r = r').
Proof.
  intros Hsw Hpos. cbv zeta. unfold ServoTemplate_Run.
  rewrite <- Hsw, <- Hpos.
  destruct (g_in g); [|repeat split].
  destruct (g_out g); [|repeat split].
  destruct (status_word inp =? 0); [repeat split|].
  destruct (negb (Z.land (status_word inp) 8 =? 0)).
  { destruct (need_release c =? 0); repeat split. }
  destruct (0 <? fault_cool_rem c); [repeat split|].
  destruct (0 <? comm_cool_rem c); [repeat split|].
  destruct (negb (Z.land (status_word inp) 64 =? 0)); [repeat split|].
  destruct (st c =? 0); [repeat split|].
  destruct (st c =? 1); [repeat split|].
  destruct (st c =? 2); [repeat split|].
  destruct (st c =? 3); [|repeat split].
  destruct (elapsed LOOP_PERIOD_MS now c); [|repeat split].
  rewrite !csp_producer_eq. cbv zeta.
  destruct (fe_monitor_log (fe_warn (advance_target c))
              (s32 (u32 (following_error_actual inp)))) as [Hc Ht].
  destruct (fe_monitor_log (fe_warn (advance_target c))
              (s32 (u32 (following_error_actual inp')))) as [Hc' Ht'].
  cbn [fst snd app control_writes target_writes].
  rewrite Hc, Ht, Hc', Ht'.
  repeat split. intros ->. reflexivity.
Qed.

Lemma following_error_does_not_steer_witness :
  snd (fst (ServoTemplate_Run g_mapped 101 (mkInputs 0x0027 0 0 0)
              (mkCtx 3 100 5000 1 0 0 0 0 0 0 0) (mkOutputs 0x000F 5000))) =
  snd (fst (ServoTemplate_Run g_mapped 101 (mkInputs 0x0027 0 19000 0x7500)
              (mkCtx 3 100 5000 1 0 0 0 0 0 0 0) (mkOutputs 0x000F 5000))).
Proof.
  exact (proj1 (following_error_does_not_steer g_mapped 101
           (mkCtx 3 100 5000 1 0 0 0 0 0 0 0) (mkOutputs 0x000F 5000)
           (mkInputs 0x0027 0 0 0) (mkInputs 0x0027 0 19000 0x7500)
           eq_refl eq_refl)).
Defined.

(** * Enabling without a jump *)

Lemma first_ramp_step d :
  d = 1 \/ d = -1 -> tick_delta d RAMP_MS = d.
Proof.
  intros Hd. rewrite tick_delta_ramp by (auto; unfold RAMP_MS; lia). lia.
Qed.

(** X20. No jump when the drive is enabled.  In any execution from the
    initial context, when a call in the aligning stage reads operation
    enabled with the actual position [p] inside the limits and the next
    call is a producer tick, the first target produced is within one count
    of [p] (it is [p] itself while a dwell is pending or when [p] sits on
    the limit the axis moves towards). *)
Theorem no_jump_on_enable g o0 tr n1 i1 n2 i2 :
  mapped g ->
  st (run_ctx g ctx0 o0 tr) = 2 ->
  Z.land (status_word i1) 0x006F = 0x0027 ->
  within_limits (position_actual_value i1) ->
  healthy i2 ->
  LOOP_PERIOD_MS <= s64 (n2 - n1) ->
  exists ev v,
    run_events g (run_ctx g ctx0 o0 tr) (run_out g ctx0 o0 tr)
      [(n1, i1); (n2, i2)] =
    [[WrTarget (position_actual_value i1); WrControl 0x000F;
      DbgOperationEnabled]; ev] /\
    target_writes ev = [v] /\
    Z.abs (v - position_actual_value i1) <= 1.
Proof.
  intros Hg Hst Hpat Hw Hh Hel.
  pose proof (run_ctx_inv g tr ctx0 o0 ctx0_inv)
    as (_ & Hdir & Hdw & _ & Hiff & _ & Hcc & _ & _ & _).
  pose proof (run_fault_cool_rem g tr ctx0 o0 eq_refl) as Hfc.
  set (c := run_ctx g ctx0 o0 tr) in *.
  set (out := run_out g ctx0 o0 tr).
  set (p := position_actual_value i1) in *.
  pose proof (within_limits_i32 p Hw) as Hi.
  rewrite run_events_cons.
  rewrite (Run_operation_enabled g n1 i1 c out Hg) by (try assumption; lia).
  fold p. rewrite (s32_u32_id p Hi). cbn [fst snd].
  set (c1 := set_ramp_rem RAMP_MS (set_t0 n1 (set_st 3 (set_pos_tgt p c)))).
  set (o1 := mkOutputs 15 p).
  rewrite run_events_cons.
  change (run_events g _ _ []) with (@nil (list Event)).
  assert (Hp : producer_tick g n2 i2 c1).
  { unfold producer_tick. destruct Hh as (? & ? & ?).
    repeat split; try assumption; unfold c1; ctx_simpl; lia. }
  destruct (producer_step g n2 i2 c1 o1 Hp Hi)
    as (_ & _ & _ & _ & _ & _ & _ & _ & _ & Ew).
  exists (snd (ServoTemplate_Run g n2 i2 c1 o1)), (pos_tgt (advance_target c1)).
  split; [reflexivity|]. split; [exact Ew|].
  destruct (Z.ltb_spec 0 (dwell_rem c)) as [D|D].
  - rewrite advance_target_dwell by exact D.
    change (pos_tgt c1) with p. lia.
  - assert (Hd : dir c = 1 \/ dir c = -1).
    { destruct Hdir as [E|[E|E]]; [auto| |auto].
      apply Hiff in E. lia. }
    rewrite advance_target_moving by exact D.
    change (pos_tgt c1) with p. change (dir c1) with (dir c).
    change (ramp_rem c1) with RAMP_MS.
    rewrite (first_ramp_step (dir c) Hd).
    unfold within_limits, LIMIT_POS, in_i32 in *. pow2.
    rewrite s32_id by (unfold in_i32; pow2; lia).
    match goal with
    | |- context [clamp_limits ?x] =>
      destruct (clamp_limits_cases x) as [[_ ->]|[[Hhi ->]|[Hlo ->]]]
    end; unfold LIMIT_POS in *; ctx_simpl; lia.
Qed.

Lemma no_jump_on_enable_witness :
  st (run_ctx g_mapped ctx0 out0
        [(1, sw_only 0x0021); (2, sw_only 0x0023)]) = 2 /\
  exists ev v,
    run_events g_mapped
      (run_ctx g_mapped ctx0 out0 [(1, sw_only 0x0021); (2, sw_only 0x0023)])
      (run_out g_mapped ctx0 out0 [(1, sw_only 0x0021); (2, sw_only 0x0023)])
      [(3, mkInputs 0x0027 200000 0 0); (4, mkInputs 0x0027 200000 0 0)] =
    [[WrTarget 200000; WrControl 0x000F; DbgOperationEnabled]; ev] /\
    target_writes ev = [v] /\
    Z.abs (v - 200000) <= 1.
Proof.
  split; [reflexivity|].
  apply (no_jump_on_enable g_mapped out0
           [(1, sw_only 0x0021); (2, sw_only 0x0023)]
           3 (mkInputs 0x0027 200000 0 0) 4 (mkInputs 0x0027 200000 0 0)).
  - reflexivity.
  - reflexivity.
  - reflexivity.
  - vm_compute; split; discriminate.
  - vm_compute; repeat split; discriminate.
  - vm_compute; discriminate.
Defined.
